(** * Rag_document_chatbot: the retrieval pipeline and its request boundary

    A shallow embedding of [app/ingest.py], [app/generator.py],
    [app/retriever.py], [app/rag_graph.py] and of [main.py]: startup and
    the [/ask], [/health] and [/stats] handlers.

    - Python [float] and numpy [float64] are IEEE binary64: Rocq's primitive
      [float], specified by [Prim2SF] and the axioms of [FloatAxioms].
    - Python [str] is a sequence of Unicode code points: [list N].
    - Python [int] is [Z].
    - Module-level globals ([_embeddings_model], [llm], [DOCUMENTS],
      [DOC_EMBEDDINGS]) and the log of calls that leave the process form the
      [world]; a function that may raise and may touch the world is a
      computation in the monad [M].
    - The embedding provider, the chat model, the file system, scikit-learn's
      [cosine_similarity] and the order numpy's sort leaves equal scores in
      are not part of the repository: they are the fields of a [providers]
      record.
    - The similarity score itself is computed by scikit-learn; where a
      statement is about the score, it is stated over the formula of the
      specification, on the real numbers (module [similarity]). *)

From Stdlib Require Import ZArith NArith List Lia Bool String Ascii.
From Stdlib Require Import DecimalString.
From Stdlib Require Import Sorting.Sorted Permutation.
From Stdlib Require Import Uint63 Floats.
From Stdlib Require Import Reals Lra.
Import ListNotations.

Set Warnings "-inexact-float".
Open Scope Z_scope.

(** ** Part I: definitions *)

(** *** binary64 values as scaled integers

    A finite binary64 number is [m * 2^e] with [e >= -1074]; multiplied by
    [2^1074] it is an integer.  [SFkey] is that integer, with the infinities
    placed beyond every finite value, and nothing for NaN. *)

Definition SFkey (s : spec_float) : option Z :=
  match s with
  | S754_nan => None
  | S754_zero _ => Some 0
  | S754_infinity s => Some (if s then - 2 ^ 2100 else 2 ^ 2100)
  | S754_finite s m e => Some (cond_Zopp s (Zpos m * 2 ^ (e + 1074)))
  end.

Definition fkey (x : float) : option Z := SFkey (Prim2SF x).

(** numpy sorts NaN after every number: the key of NaN is above [+inf]. *)
Definition npy_key (x : float) : Z :=
  match fkey x with
  | Some a => a
  | None => 2 ^ 2101
  end.

(** numpy's [LT] on floating-point keys:
    [a < b || (b != b && a == a)]. *)
Definition npy_lt (a b : float) : bool :=
  (a <? b)%float || (negb (b =? b)%float && (a =? a)%float).

(** *** Python built-ins on floats *)

(** [min(a, b)]: the first argument unless the second is smaller. *)
Definition py_min (a b : float) : float := if (b <? a)%float then b else a.

(** [max(a, b)]: the first argument unless the second is greater. *)
Definition py_max (a b : float) : float := if (a <? b)%float then b else a.

(** [sum(xs)] on floats, as CPython 3.12 and later compute it (Neumaier's
    compensated summation in [builtin_sum]): the first addition turns the
    integer start [0] into [0.0 + x]; from there on a running sum [hi] and
    a compensation [lo] are kept, and [lo] is added at the end unless it is
    zero, infinite or NaN. *)
Definition cs_add (total : float * float) (x : float) : float * float :=
  let '(hi, lo) := total in
  let t := (hi + x)%float in
  if (PrimFloat.abs x <=? PrimFloat.abs hi)%float
  then (t, (lo + ((hi - t) + x))%float)
  else (t, (lo + ((x - t) + hi))%float).

Definition cs_to_double (total : float * float) : float :=
  let '(hi, lo) := total in
  if negb (lo =? 0)%float && PrimFloat.is_finite lo then (hi + lo)%float
  else hi.

Definition py_sum (xs : list float) : float :=
  match xs with
  | [] => 0%float
  | x :: rest => cs_to_double (fold_left cs_add rest ((0 + x)%float, 0%float))
  end.

(** [float(n)] for a length [n]. *)
Definition float_of_nat (n : nat) : float :=
  PrimFloat.of_uint63 (Uint63.of_Z (Z.of_nat n)).

(** Nearest integer to [a / b] for [b > 0], ties to even. *)
Definition rne_div (a b : Z) : Z :=
  let q := a / b in
  match (2 * (a mod b)) ?= b with
  | Lt => q
  | Gt => q + 1
  | Eq => if Z.even q then q else q + 1
  end.

(** The binary64 number nearest to [n / d] (ties to even), with sign [s]. *)
Definition float_of_ratio (s : bool) (n d : positive) : float :=
  SF2Prim (SFdiv prec emax (S754_finite s n 0) (S754_finite false d 0)).

(** [round(x, ndigits)] for [0 <= ndigits]: CPython prints [x] correctly
    rounded (ties to even) with [ndigits] decimals and reads the decimal
    string back as the nearest float.  Zeros, infinities and NaN round to
    themselves, and so does every [x] when [ndigits] exceeds 323. *)
Definition py_round (x : float) (ndigits : nat) : float :=
  if (323 <? Z.of_nat ndigits) then x else
  match Prim2SF x with
  | S754_finite s m e =>
      let scale := 10 ^ Z.of_nat ndigits in
      match rne_div (Zpos m * 2 ^ (e + 1074) * scale) (2 ^ 1074) with
      | Zpos n => float_of_ratio s n (Z.to_pos scale)
      | _ => SF2Prim (S754_zero s)
      end
  | _ => x
  end.

(** [n / 100] as a float: what [round(x, 2)] returns when the nearest
    integer to [100 * x] is [n >= 0]. *)
Definition hundredth (n : Z) : float :=
  match n with
  | Zpos p => float_of_ratio false p 100
  | _ => 0%float
  end.

(** *** Python strings *)

Definition str := list N.

Definition lit (s : string) : str :=
  map N_of_ascii (list_ascii_of_string s).

(** [str.isspace] on one code point: CPython's [_PyUnicode_IsWhitespace]. *)
Definition isspace (c : N) : bool :=
  match c with
  | 0x09 | 0x0A | 0x0B | 0x0C | 0x0D
  | 0x1C | 0x1D | 0x1E | 0x1F | 0x20
  | 0x85 | 0xA0 | 0x1680
  | 0x2000 | 0x2001 | 0x2002 | 0x2003 | 0x2004 | 0x2005
  | 0x2006 | 0x2007 | 0x2008 | 0x2009 | 0x200A
  | 0x2028 | 0x2029 | 0x202F | 0x205F | 0x3000 => true
  | _ => false
  end%N.

Fixpoint lstrip (s : str) : str :=
  match s with
  | c :: s' => if isspace c then lstrip s' else s
  | [] => []
  end.

Definition rstrip (s : str) : str := rev (lstrip (rev s)).

Definition strip (s : str) : str := rstrip (lstrip s).

Fixpoint str_eqb (a b : str) : bool :=
  match a, b with
  | [], [] => true
  | x :: a', y :: b' => N.eqb x y && str_eqb a' b'
  | _, _ => false
  end.

Definition endswith (s suffix : str) : bool :=
  (List.length suffix <=? List.length s)%nat &&
  str_eqb (skipn (List.length s - List.length suffix) s) suffix.

(** [sep.join(parts)] *)
Fixpoint join (sep : str) (parts : list str) : str :=
  match parts with
  | [] => []
  | [p] => p
  | p :: rest => p ++ sep ++ join sep rest
  end.

(** *** Python sequences *)

(** [l[start:]] *)
Definition slice_from {A : Type} (start : Z) (l : list A) : list A :=
  let n := Z.of_nat (List.length l) in
  let lo := if start <? 0 then Z.max (start + n) 0 else Z.min start n in
  skipn (Z.to_nat lo) l.

Definition enumerate {A : Type} (l : list A) : list (nat * A) :=
  combine (seq 0 (List.length l)) l.

(** *** Exceptions, the world, the monad *)

Inductive exn : Type :=
| ValueError (msg : str)
| IndexError (msg : str)
| ExternalError (msg : str).

(** [str(e)] *)
Definition exn_str (e : exn) : str :=
  match e with
  | ValueError msg | IndexError msg | ExternalError msg => msg
  end.

Inductive outcome (A : Type) : Type :=
| Returns (a : A)
| Raises (e : exn).
Arguments Returns {A} a.
Arguments Raises {A} e.

Definition vec := list float.

(** A call that leaves the process. *)
Inductive call : Type :=
| EmbedQuery (text : str)
| EmbedDocuments (texts : list str)
| ChatInvoke (system human : str)
| OpenFile (path : str)
| LoadPdf (path : str).

Record world : Type := mkWorld {
  embeddings_model : bool;           (* retriever._embeddings_model is not None *)
  llm : bool;                        (* generator.llm is not None *)
  DOCUMENTS : option (list str);     (* main.DOCUMENTS *)
  DOC_EMBEDDINGS : option (list vec);(* main.DOC_EMBEDDINGS *)
  calls : list call
}.

(** The collaborators outside the repository.  Network providers see the
    calls made so far: they need not answer the same way twice.
    [tie_rank scores] is the preference of numpy's sort among the indices of
    equal scores (see [argsort] below). *)
Record providers : Type := mkProviders {
  OpenAIEmbeddings : outcome unit;
  embed_query : list call -> str -> outcome vec;
  embed_documents : list call -> list str -> outcome (list vec);
  ChatOpenAI : outcome unit;
  chat_invoke : list call -> str -> str -> outcome str;
  cosine_similarity : vec -> option (list vec) -> outcome (list float);
  open_lines : str -> outcome (list str);
  PyPDFLoader_load : str -> outcome (list str);
  tie_rank : list float -> nat -> nat
}.

Definition M (A : Type) : Type := world -> outcome A * world.

Definition ret {A : Type} (a : A) : M A := fun w => (Returns a, w).

Definition bind {A B : Type} (m : M A) (f : A -> M B) : M B :=
  fun w =>
    match m w with
    | (Returns a, w') => f a w'
    | (Raises e, w') => (Raises e, w')
    end.

Definition lift {A : Type} (o : outcome A) : M A := fun w => (o, w).

Definition raise {A : Type} (e : exn) : M A := lift (Raises e).

(** [try: m except Exception as e: handler e] *)
Definition try_except {A : Type} (m : M A) (handler : exn -> M A) : M A :=
  fun w =>
    match m w with
    | (Returns a, w') => (Returns a, w')
    | (Raises e, w') => handler e w'
    end.

Declare Scope monad_scope.
Delimit Scope monad_scope with monad.
Notation "x <- m ;; k" := (bind m (fun x => k))
  (at level 61, m at next level, right associativity) : monad_scope.
Notation "' pat <- m ;; k" := (bind m (fun x => match x with pat => k end))
  (at level 61, pat pattern, m at next level, right associativity) : monad_scope.
Open Scope monad_scope.

(** Record the call, then ask the provider, which sees the earlier calls. *)
Definition external {A : Type} (c : call) (answer : list call -> outcome A) : M A :=
  fun w =>
    (answer (calls w),
     mkWorld (embeddings_model w) (llm w) (DOCUMENTS w) (DOC_EMBEDDINGS w)
             (calls w ++ [c])).

(** [l[i]] for an index [i >= 0] on a Python list or a numpy row. *)
Definition getitem {A : Type} (l : list A) (i : nat) : outcome A :=
  match nth_error l i with
  | Some a => Returns a
  | None => Raises (IndexError (lit "list index out of range"))
  end.

(** [[f(i) for i in l]], stopping at the first exception. *)
Fixpoint comprehension {A B : Type} (f : A -> outcome B) (l : list A)
  : outcome (list B) :=
  match l with
  | [] => Returns []
  | a :: l' =>
      match f a with
      | Raises e => Raises e
      | Returns b =>
          match comprehension f l' with
          | Raises e => Raises e
          | Returns bs => Returns (b :: bs)
          end
      end
  end.

(** *** numpy arrays *)

(** [str(n)] for a length [n]. *)
Definition decimal (n : nat) : str := lit (NilZero.string_of_uint (Nat.to_uint n)).

(** The message of the [ValueError] numpy raises for [n] rows that are not
    of one length. *)
Definition inhomogeneous (n : nat) : str :=
  lit "setting an array element with a sequence. The requested array has an inhomogeneous shape after 1 dimensions. The detected shape was ("
  ++ decimal n ++ lit ",) + inhomogeneous part.".

(** The rows are of one length: each has the length of the first. *)
Definition rectangular (rows : list vec) : bool :=
  match rows with
  | [] => true
  | row :: rest =>
      forallb (fun r => (List.length r =? List.length row)%nat) rest
  end.

(** [np.array(rows)] for a list of rows of floats: the two-dimensional array
    of these rows when they are of one length (the empty array for no row),
    and a [ValueError] otherwise (numpy 1.24 and later). *)
Definition np_array (rows : list vec) : outcome (list vec) :=
  if rectangular rows then Returns rows
  else Raises (ValueError (inhomogeneous (List.length rows))).

(** *** numpy's argsort

    [scores.argsort()]: the indices that sort the array in ascending order,
    NaN last.  numpy's default sort is not stable: which of two equal
    scores comes first is left to the sort the build runs (an insertion
    sort that keeps the index order on a short array, a vectorised sort
    where the processor has one).  The provider's [tie_rank] stands for that
    choice: of two equal scores the index of lower rank comes first, and the
    smaller index when the ranks are equal too.  Every order of the indices
    in which the scores ascend is the [argsort] of some [tie_rank] (lemma
    [argsort_any_order]), so no sort is left out.  The sort itself is an
    insertion sort over the (index, score) pairs: a pair goes in front of
    the first one that does not come before it. *)

Definition pair_before (rank : nat -> nat) (q p : nat * float) : bool :=
  npy_lt (snd q) (snd p)
  || (negb (npy_lt (snd p) (snd q)) && (rank (fst q) <? rank (fst p))%nat).

Fixpoint insert_pair (rank : nat -> nat) (p : nat * float)
         (l : list (nat * float)) : list (nat * float) :=
  match l with
  | [] => [p]
  | q :: l' =>
      if pair_before rank q p then q :: insert_pair rank p l' else p :: q :: l'
  end.

Fixpoint sort_pairs (rank : nat -> nat) (l : list (nat * float))
  : list (nat * float) :=
  match l with
  | [] => []
  | p :: l' => insert_pair rank p (sort_pairs rank l')
  end.

Definition argsort (P : providers) (scores : list float) : list nat :=
  map fst (sort_pairs (tie_rank P scores) (enumerate scores)).

(** *** app/ingest.py *)

Module ingest.

Definition load_txt (P : providers) (path : str) : M (list str) :=
  f <- external (OpenFile path) (fun _ => open_lines P path) ;;
  ret (map strip (filter (fun line => negb (str_eqb (strip line) [])) f)).

Definition load_documents (P : providers) (path : str) : M (list str) :=
  if endswith path (lit ".txt") then load_txt P path
  else raise (ValueError (lit "Unsupported file format: " ++ path)).

Definition load_pdf (P : providers) (path : str) : M (list str) :=
  external (LoadPdf path) (fun _ => PyPDFLoader_load P path).

End ingest.

(** *** app/generator.py *)

Module generator.

Definition get_llm (P : providers) : M unit :=
  fun w =>
    if llm w then (Returns tt, w)
    else
      match ChatOpenAI P with
      | Returns _ =>
          (Returns tt,
           mkWorld (embeddings_model w) true (DOCUMENTS w) (DOC_EMBEDDINGS w)
                   (calls w))
      | Raises e => (Raises e, w)
      end.

Definition prompt (question context : str) : str :=
  [10%N] ++ lit "Answer using ONLY the context below." ++ [10%N; 10%N]
  ++ lit "Context:" ++ [10%N] ++ context ++ [10%N; 10%N]
  ++ lit "Question:" ++ [10%N] ++ question ++ [10%N].

Definition generate_answer (P : providers) (question context : str) : M str :=
  _ <- get_llm P ;;
  external (ChatInvoke (lit "You are a helpful assistant.")
                       (prompt question context))
           (fun history =>
              chat_invoke P history (lit "You are a helpful assistant.")
                          (prompt question context)).

End generator.

(** *** app/retriever.py *)

Module retriever.

Definition get_embeddings_model (P : providers) : M unit :=
  fun w =>
    if embeddings_model w then (Returns tt, w)
    else
      match OpenAIEmbeddings P with
      | Returns _ =>
          (Returns tt,
           mkWorld true (llm w) (DOCUMENTS w) (DOC_EMBEDDINGS w) (calls w))
      | Raises e => (Raises e, w)
      end.

Definition embed_texts (P : providers) (texts : list str)
  : M (option (list vec)) :=
  _ <- get_embeddings_model P ;;
  vectors <- external (EmbedDocuments texts)
                      (fun history => embed_documents P history texts) ;;
  array <- lift (np_array vectors) ;;
  ret (Some array).

Definition build_index (P : providers) (path : str)
  : M (list str * option (list vec)) :=
  documents <- ingest.load_documents P path ;;
  doc_embeddings <- embed_texts P documents ;;
  ret (documents, doc_embeddings).

(** [scores.argsort()[-k:][::-1]] *)
Definition top_idx (P : providers) (scores : list float) (k : Z) : list nat :=
  rev (slice_from (- k) (argsort P scores)).

Definition retrieve (P : providers) (query : str) (documents : list str)
           (doc_embeddings : option (list vec)) (k : Z)
  : M (list str * list float) :=
  _ <- get_embeddings_model P ;;
  query_vector <- external (EmbedQuery query)
                           (fun history => embed_query P history query) ;;
  scores <- lift (cosine_similarity P query_vector doc_embeddings) ;;
  top_docs <- lift (comprehension (getitem documents) (top_idx P scores k)) ;;
  top_scores <- lift (comprehension (getitem scores) (top_idx P scores k)) ;;
  ret (top_docs, top_scores).

End retriever.

(** *** app/rag_graph.py *)

Module rag_graph.

Definition compute_confidence (sim_scores : list float) : float :=
  match sim_scores with
  | [] => 0%float
  | _ =>
      let avg_score :=
        (py_sum sim_scores / float_of_nat (List.length sim_scores))%float in
      let confidence := py_max 0%float (py_min 1%float avg_score) in
      py_round confidence 2
  end.

Definition rag (P : providers) (question : str) (documents : list str)
           (doc_embeddings : option (list vec)) (k : Z)
  : M (str * list str * float) :=
  '(retrieved_docs, sim_scores) <-
     retriever.retrieve P question documents doc_embeddings k ;;
  let context := join [10%N] retrieved_docs in
  answer <- generator.generate_answer P question context ;;
  let confidence := compute_confidence sim_scores in
  ret (answer, retrieved_docs, confidence).

End rag_graph.

(** *** main.py *)

Module main.

Record QuestionRequest : Type := mkRequest {
  req_question : str;
  req_k : Z
}.

Record QuestionResponse : Type := mkResponse {
  question : str;
  k : Z;
  answer : str;
  contexts : list str;
  confidence : float
}.

Definition startup_event (P : providers) : M unit :=
  fun w =>
    let attempt : M (list str * option (list vec)) :=
      docs_txt <- ingest.load_txt P (lit "data/input.txt") ;;
      docs_pdf <- ingest.load_pdf P (lit "data/doc.pdf") ;;
      doc_embeddings <- retriever.embed_texts P (docs_txt ++ docs_pdf) ;;
      ret (docs_txt ++ docs_pdf, doc_embeddings) in
    match attempt w with
    | (Returns (documents, doc_embeddings), w') =>
        (Returns tt,
         mkWorld (embeddings_model w') (llm w') (Some documents)
                 doc_embeddings (calls w'))
    | (Raises _, w') =>
        (Returns tt,
         mkWorld (embeddings_model w') (llm w') (Some []) None (calls w'))
    end.

Definition ask_question (P : providers) (payload : QuestionRequest)
  : M QuestionResponse :=
  fun w =>
    match DOCUMENTS w with
    | Some ((_ :: _) as documents) =>
        if str_eqb (req_question payload) []
           || str_eqb (strip (req_question payload)) [] then
          ret (mkResponse (req_question payload) (req_k payload)
                 (lit "Please provide a valid question.")
                 [] 0%float) w
        else
          try_except
            ('(answer, contexts, confidence) <-
               rag_graph.rag P (req_question payload) documents
                             (DOC_EMBEDDINGS w) (req_k payload) ;;
             ret (mkResponse (req_question payload) (req_k payload)
                    answer contexts confidence))
            (fun e =>
               ret (mkResponse (req_question payload) (req_k payload)
                      (lit "Error processing question: " ++ exn_str e)
                      [] 0%float))
            w
    | _ =>
        (* [not DOCUMENTS]: [None] or the empty list *)
        ret (mkResponse (req_question payload) (req_k payload)
               (lit "Error: Documents not loaded. Check your .env file and ensure OPENAI_API_KEY is set.")
               [] 0%float) w
    end.

(** [GET /health] *)
Record HealthReport : Type := mkHealth {
  status : str;
  documents_loaded : nat;
  embeddings_ready : bool;
  message : str
}.

Definition health_check (w : world) : HealthReport :=
  match DOCUMENTS w with
  | Some ((_ :: _) as documents) =>
      mkHealth (lit "healthy") (List.length documents)
               (match DOC_EMBEDDINGS w with Some _ => true | None => false end)
               (lit "Ready")
  | _ =>
      mkHealth (lit "documents_not_loaded") 0
               (match DOC_EMBEDDINGS w with Some _ => true | None => false end)
               (lit "Set OPENAI_API_KEY environment variable to enable document loading")
  end.

(** [GET /stats].  An ndarray built from a list of rows of one length has
    shape (rows, row length); built from the empty list it has shape (0,),
    and [shape[1]] raises. *)
Record Stats : Type := mkStats {
  total_documents : nat;
  embedding_dimension : nat;
  total_embeddings : nat
}.

Definition get_stats (w : world) : outcome Stats :=
  let total :=
    match DOCUMENTS w with
    | Some ((_ :: _) as documents) => List.length documents
    | _ => 0%nat
    end in
  match DOC_EMBEDDINGS w with
  | None => Returns (mkStats total 0 0)
  | Some [] => Raises (IndexError (lit "tuple index out of range"))
  | Some ((row :: _) as rows) =>
      Returns (mkStats total (List.length row) (List.length rows))
  end.

End main.

(** *** The confidence estimator in the words of the specification

    "arithmetic mean of the input scores, then clamp to [0,1], then round to
    2 decimal places; empty input gives 0.0". *)

Definition mean (scores : list float) : float :=
  (py_sum scores / float_of_nat (List.length scores))%float.




(** *** The similarity score of the specification

    [retrieve] takes its scores from scikit-learn's [cosine_similarity],
    which is not under src/.  Section 4.2 of the specification gives the
    score of a pair of vectors; it is modelled here on the real numbers,
    where a division is an operation that fails on a zero divisor, the only
    source of a NaN or an infinity. *)

Module similarity.

(** Modelled from the spec: the [dot(q, v_i)] of section 4.2 (scikit-learn's
    code is not under src/).  The two vectors have the dimension of the
    embedding; on lists of different lengths the sum stops at the shorter. *)
Fixpoint dot (q v : list R) : R :=
  match q, v with
  | x :: q', y :: v' => (x * y + dot q' v')%R
  | _, _ => 0%R
  end.




End similarity.

(** *** Deterministic stand-ins for the providers

    Stand-ins that evaluate without a network: every query embeds to the
    first axis, the similarity of two vectors is their dot product (their
    cosine, on the unit vectors used below), the chat model answers with a
    constant, and the sort has no preference among equal scores: it keeps
    them in index order, as numpy's insertion sort does. *)

Definition dot (a b : vec) : float :=
  fold_left PrimFloat.add
            (map (fun xy => (fst xy * snd xy)%float) (combine a b)) 0%float.

Definition fake : providers :=
  {| OpenAIEmbeddings := Returns tt;
     embed_query := fun _ _ => Returns [1%float; 0%float];
     embed_documents := fun _ texts => Returns (map (fun _ => [1%float; 0%float]) texts);
     ChatOpenAI := Returns tt;
     chat_invoke := fun _ _ _ => Returns (lit "mammals");
     cosine_similarity := fun q rows =>
       match rows with
       | Some rows => Returns (map (dot q) rows)
       | None => Raises (ValueError (lit "Expected 2D array"))
       end;
     open_lines := fun _ => Returns [lit "cats are mammals"];
     PyPDFLoader_load := fun _ => Returns [lit "the stock market fell today"];
     tie_rank := fun _ _ => 0%nat |}.

(** As [fake], with a sort that prefers the greater index among equal
    scores. *)
Definition greater_first : providers :=
  {| OpenAIEmbeddings := OpenAIEmbeddings fake;
     embed_query := embed_query fake;
     embed_documents := embed_documents fake;
     ChatOpenAI := ChatOpenAI fake;
     chat_invoke := chat_invoke fake;
     cosine_similarity := cosine_similarity fake;
     open_lines := open_lines fake;
     PyPDFLoader_load := PyPDFLoader_load fake;
     tie_rank := fun scores i => (List.length scores - i)%nat |}.

(** As [fake], with an embedding provider that cannot be reached. *)
Definition unreachable : providers :=
  {| OpenAIEmbeddings := Returns tt;
     embed_query := fun _ _ => Raises (ExternalError (lit "Connection error."));
     embed_documents := fun _ _ => Raises (ExternalError (lit "Connection error."));
     ChatOpenAI := ChatOpenAI fake;
     chat_invoke := chat_invoke fake;
     cosine_similarity := cosine_similarity fake;
     open_lines := open_lines fake;
     PyPDFLoader_load := PyPDFLoader_load fake;
     tie_rank := tie_rank fake |}.

Definition two_documents : list str :=
  [lit "cats are mammals"; lit "the stock market fell today"].

(** Two equal rows: the same similarity to every query. *)
Definition tied_rows : option (list vec) :=
  Some [[1%float; 0%float]; [1%float; 0%float]].

(** Two orthogonal rows: similarities 1.0 and 0.0 to the query. *)
Definition corpus_rows : option (list vec) :=
  Some [[1%float; 0%float]; [0%float; 1%float]].

(** A world with the two documents and their vectors in memory, no client
    built yet and no call made. *)
Definition loaded : world :=
  mkWorld false false (Some two_documents) corpus_rows [].

Definition mammals : str := lit "tell me about mammals".

(** The calls made between two worlds. *)
Definition new_calls (w w' : world) : list call :=
  skipn (List.length (calls w)) (calls w').

Definition is_generation (c : call) : bool :=
  match c with
  | ChatInvoke _ _ => true
  | _ => false
  end.

(** *** Orders used in the statements *)

(** The order [argsort] leaves the (index, score) pairs in: ascending by
    score (numpy's order), and by rank among equal scores. *)
Definition pair_le (rank : nat -> nat) (p q : nat * float) : Prop :=
  npy_key (snd p) < npy_key (snd q)
  \/ (npy_key (snd p) = npy_key (snd q) /\ (rank (fst p) <= rank (fst q))%nat).

(** [scores[i]], NaN outside the row. *)
Definition score_at (scores : list float) (i : nat) : float :=
  nth i scores nan.

(** The place of [i] in [idx]: the number of entries before it. *)
Fixpoint position (idx : list nat) (i : nat) : nat :=
  match idx with
  | [] => 0%nat
  | j :: rest => if (j =? i)%nat then 0%nat else S (position rest i)
  end.

(** The score at index [i] is at least the score at index [j], in numpy's
    order. *)
Definition scored_at_least (scores : list float) (i j : nat) : Prop :=
  npy_key (score_at scores j) <= npy_key (score_at scores i).

(** *** Lines 33 to 40 of [retrieve], once the query vector is known *)

Definition select (P : providers) (query_vector : vec) (documents : list str)
           (doc_embeddings : option (list vec)) (k : Z)
  : outcome (list str * list float) :=
  match cosine_similarity P query_vector doc_embeddings with
  | Raises e => Raises e
  | Returns scores =>
      match comprehension (getitem documents) (retriever.top_idx P scores k) with
      | Raises e => Raises e
      | Returns top_docs =>
          match comprehension (getitem scores) (retriever.top_idx P scores k) with
          | Raises e => Raises e
          | Returns top_scores => Returns (top_docs, top_scores)
          end
      end
  end.

(** The client singletons exist or can be built. *)
Definition model_ready (P : providers) (w : world) : Prop :=
  embeddings_model w = true \/ OpenAIEmbeddings P = Returns tt.

Definition llm_ready (P : providers) (w : world) : Prop :=
  llm w = true \/ ChatOpenAI P = Returns tt.

(** The world after a call, with the embedding client built. *)
Definition after_embedding (w : world) (c : call) : world :=
  mkWorld true (llm w) (DOCUMENTS w) (DOC_EMBEDDINGS w) (calls w ++ [c]).

Definition after_generation (w : world) (c : call) : world :=
  mkWorld (embeddings_model w) true (DOCUMENTS w) (DOC_EMBEDDINGS w)
          (calls w ++ [c]).

Definition SYSTEM : str := lit "You are a helpful assistant.".

(** The order of the specification, checked on neighbours: "descending
    score, ties broken by smaller original index". *)
Fixpoint ranked_as_specified (scores : list float) (idx : list nat) : bool :=
  match idx with
  | i :: ((j :: _) as rest) =>
      ((score_at scores j <? score_at scores i)%float
       || ((score_at scores i =? score_at scores j)%float && (i <? j)%nat))
      && ranked_as_specified scores rest
  | _ => true
  end.

(** The response of [/ask] that carries a message instead of an answer. *)
Definition refusal (payload : main.QuestionRequest) (message : str)
  : main.QuestionResponse :=
  main.mkResponse (main.req_question payload) (main.req_k payload)
                  message [] 0%float.

Definition NOT_LOADED : str :=
  lit "Error: Documents not loaded. Check your .env file and ensure OPENAI_API_KEY is set.".

Definition INVALID_QUESTION : str := lit "Please provide a valid question.".

Definition error_message (e : exn) : str :=
  lit "Error processing question: " ++ exn_str e.

(** *** Further notions used in the statements *)

(** The body of the [try] in [startup_event]. *)
Definition startup_attempt (P : providers) : M (list str * option (list vec)) :=
  docs_txt <- ingest.load_txt P (lit "data/input.txt") ;;
  docs_pdf <- ingest.load_pdf P (lit "data/doc.pdf") ;;
  doc_embeddings <- retriever.embed_texts P (docs_txt ++ docs_pdf) ;;
  ret (docs_txt ++ docs_pdf, doc_embeddings).

(** No whitespace at either end. *)
Definition trimmed (s : str) : Prop :=
  (forall c, hd_error s = Some c -> isspace c = false)
  /\ (forall c, hd_error (rev s) = Some c -> isspace c = false).

(** A request leaves the corpus alone and adds [cs] to the call log. *)
Definition extends_by (w w' : world) (cs : list call) : Prop :=
  DOCUMENTS w' = DOCUMENTS w
  /\ DOC_EMBEDDINGS w' = DOC_EMBEDDINGS w
  /\ calls w' = calls w ++ cs.

(** The world after a call that builds no client. *)
Definition after_call (w : world) (c : call) : world :=
  mkWorld (embeddings_model w) (llm w) (DOCUMENTS w) (DOC_EMBEDDINGS w)
          (calls w ++ [c]).

(** The lines [load_txt] keeps of a file. *)
Definition kept_lines (f : list str) : list str :=
  map strip (filter (fun line => negb (str_eqb (strip line) [])) f).

(** The marker that opens the question in the prompt. *)
Definition QUESTION_MARK : str := [10%N; 10%N] ++ lit "Question:" ++ [10%N].

(** The documents in memory. *)
Definition corpus (w : world) : list str :=
  match DOCUMENTS w with
  | Some documents => documents
  | None => []
  end.

(** The ways a run of [rag] can end: no embedding client, a failure after
    the embedding call, a failure of the chat model, an answer. *)
Inductive rag_ending (P : providers) (question : str) (documents : list str)
          (w : world) : outcome (str * list str * float) * world -> Prop :=
| no_client (e : exn) :
    embeddings_model w = false ->
    OpenAIEmbeddings P = Raises e ->
    rag_ending P question documents w (Raises e, w)
| stopped_after_embedding (e : exn) :
    model_ready P w ->
    rag_ending P question documents w
               (Raises e, after_embedding w (EmbedQuery question))
| generation_failed (e : exn) (ctxs : list str) :
    model_ready P w ->
    incl ctxs documents ->
    rag_ending P question documents w
      (Raises e,
       after_generation
         (after_embedding w (EmbedQuery question))
         (ChatInvoke SYSTEM (generator.prompt question (join [10%N] ctxs))))
| answered (answer : str) (ctxs : list str) (sim_scores : list float) :
    model_ready P w ->
    incl ctxs documents ->
    rag_ending P question documents w
      (Returns (answer, ctxs, rag_graph.compute_confidence sim_scores),
       after_generation
         (after_embedding w (EmbedQuery question))
         (ChatInvoke SYSTEM (generator.prompt question (join [10%N] ctxs)))).

(** The number of hundredths the confidence comes to, from the key [a] of
    the mean: none up to 0, a hundred from 1 on, the nearest in between. *)
Definition hundredths_of (a : Z) : Z :=
  if a <=? 0 then 0
  else if 2 ^ 1074 <=? a then 100
  else rne_div (a * 100) (2 ^ 1074).

(** The process before [startup_event]. *)
Definition fresh : world := mkWorld false false None None [].

(** Providers over two sources without content: a text file of blank lines
    and a PDF without pages; the embedding of no text is no vector. *)
Definition empty_sources : providers :=
  {| OpenAIEmbeddings := Returns tt;
     embed_query := embed_query fake;
     embed_documents := fun _ texts => Returns (map (fun _ => [1%float; 0%float]) texts);
     ChatOpenAI := Returns tt;
     chat_invoke := chat_invoke fake;
     cosine_similarity := cosine_similarity fake;
     open_lines := fun _ => Returns [lit "  "; [10%N]];
     PyPDFLoader_load := fun _ => Returns [];
     tie_rank := tie_rank fake |}.

(** Providers without the text file. *)
Definition missing_file : providers :=
  {| OpenAIEmbeddings := Returns tt;
     embed_query := embed_query fake;
     embed_documents := embed_documents fake;
     ChatOpenAI := Returns tt;
     chat_invoke := chat_invoke fake;
     cosine_similarity := cosine_similarity fake;
     open_lines := fun _ => Raises (ExternalError (lit "No such file or directory"));
     PyPDFLoader_load := PyPDFLoader_load fake;
     tie_rank := tie_rank fake |}.

(** ** Part II: lemmas and theorems *)

(** *** The order of binary64 values is the order of their keys *)

Lemma digits2_pos_bounds (m : positive) :
  2 ^ (Zpos (digits2_pos m) - 1) <= Zpos m < 2 ^ Zpos (digits2_pos m).
Proof.
  induction m as [m IH | m IH | ]; simpl digits2_pos.
  - rewrite Pos2Z.inj_succ.
    replace (Z.succ (Zpos (digits2_pos m)) - 1) with (Z.succ (Zpos (digits2_pos m) - 1)) by lia.
    rewrite !Z.pow_succ_r by lia. lia.
  - rewrite Pos2Z.inj_succ.
    replace (Z.succ (Zpos (digits2_pos m)) - 1) with (Z.succ (Zpos (digits2_pos m) - 1)) by lia.
    rewrite !Z.pow_succ_r by lia. lia.
  - simpl. lia.
Qed.

Lemma bounded_inv m e :
  SpecFloat.bounded prec emax m e = true ->
  -1074 <= e <= 971 /\ Zpos m < 2 ^ 53 /\ (-1074 < e -> 2 ^ 52 <= Zpos m).
Proof.
  unfold SpecFloat.bounded, canonical_mantissa, fexp, SpecFloat.emin, prec, emax.
  intros H. apply andb_true_iff in H. destruct H as [H1 H2].
  apply Z.eqb_eq in H1. apply Z.leb_le in H2.
  pose proof (digits2_pos_bounds m) as [Hlo Hhi].
  set (d := Zpos (digits2_pos m)) in *.
  assert (Hd : 0 < d) by (unfold d; lia).
  split; [lia|]. split.
  - assert (d <= 53) by lia.
    eapply Z.lt_le_trans; [exact Hhi|]. apply Z.pow_le_mono_r; lia.
  - intros He. assert (d = 53) by lia. rewrite H in Hlo. exact Hlo.
Qed.

Lemma finite_key_lt m1 e1 m2 e2 :
  SpecFloat.bounded prec emax m1 e1 = true -> SpecFloat.bounded prec emax m2 e2 = true ->
  e1 < e2 -> Zpos m1 * 2 ^ (e1 + 1074) < Zpos m2 * 2 ^ (e2 + 1074).
Proof.
  intros B1 B2 He.
  apply bounded_inv in B1, B2.
  destruct B1 as (E1 & M1 & _), B2 as (E2 & _ & M2).
  specialize (M2 ltac:(lia)).
  replace (e2 + 1074) with ((e1 + 1074) + (e2 - e1)) by lia.
  rewrite (Z.pow_add_r 2 (e1 + 1074) (e2 - e1)) by lia.
  assert (P : 0 < 2 ^ (e1 + 1074)) by (apply Z.pow_pos_nonneg; lia).
  assert (Q : 2 ^ 1 <= 2 ^ (e2 - e1)) by (apply Z.pow_le_mono_r; lia).
  change (2 ^ 1) with 2 in Q. change (2 ^ 53) with (2 ^ 52 * 2) in M1.
  set (p := 2 ^ (e1 + 1074)) in *. set (q := 2 ^ (e2 - e1)) in *. set (c := 2 ^ 52) in *.
  assert (A1 : Zpos m1 * p < c * 2 * p) by (apply Z.mul_lt_mono_pos_r; assumption).
  assert (A2 : c * 2 * p <= Zpos m2 * q * p).
  { apply Z.mul_le_mono_nonneg_r; [lia|]. apply Z.mul_le_mono_nonneg; lia. }
  lia.
Qed.

Lemma finite_key_bound m e :
  SpecFloat.bounded prec emax m e = true -> 0 < Zpos m * 2 ^ (e + 1074) < 2 ^ 2100.
Proof.
  intros B. apply bounded_inv in B. destruct B as (E & M & _).
  assert (P : 0 < 2 ^ (e + 1074)) by (apply Z.pow_pos_nonneg; lia).
  assert (Q : 2 ^ (e + 1074) <= 2 ^ 2045) by (apply Z.pow_le_mono_r; lia).
  split; [lia|].
  change (2 ^ 2100) with (2 ^ 53 * 2 ^ 2045 * 2 ^ 2).
  set (p := 2 ^ (e + 1074)) in *. set (c := 2 ^ 53) in *. set (u := 2 ^ 2045) in *.
  change (2 ^ 2) with 4.
  assert (A1 : Zpos m * p < c * p) by (apply Z.mul_lt_mono_pos_r; assumption).
  assert (A2 : c * p <= c * u) by (apply Z.mul_le_mono_nonneg_l; lia).
  assert (0 < c * u) by lia. lia.
Qed.

(** Settles [c = (a ?= b)] once the order of [a] and [b] follows from the
    context by linear arithmetic. *)
Ltac order_by_key :=
  symmetry;
  first [ apply Z.compare_eq_iff; lia
        | apply Z.compare_lt_iff; lia
        | apply Z.compare_gt_iff; lia ].

Lemma magnitude_compare (m1 : positive) (e1 : Z) (m2 : positive) (e2 : Z) :
  SpecFloat.bounded prec emax m1 e1 = true -> SpecFloat.bounded prec emax m2 e2 = true ->
  match e1 ?= e2 with
  | Lt => Lt
  | Gt => Gt
  | Eq => Pos.compare_cont Eq m1 m2
  end = (Zpos m1 * 2 ^ (e1 + 1074) ?= Zpos m2 * 2 ^ (e2 + 1074)).
Proof.
  intros V1 V2. destruct (Z.compare_spec e1 e2) as [E | E | E].
  - subst e2. rewrite Pos.compare_cont_spec. cbn [Pos.switch_Eq].
    change (Pos.compare m1 m2) with (Zpos m1 ?= Zpos m2).
    assert (Hp : 0 < 2 ^ (e1 + 1074))
      by (apply Z.pow_pos_nonneg; apply bounded_inv in V1; lia).
    destruct (Z.compare_spec (Zpos m1) (Zpos m2)) as [M | M | M].
    + rewrite M. symmetry. apply Z.compare_refl.
    + pose proof (Zmult_lt_compat_r _ _ _ Hp M). order_by_key.
    + pose proof (Zmult_lt_compat_r _ _ _ Hp M). order_by_key.
  - pose proof (finite_key_lt _ _ _ _ V1 V2 E). order_by_key.
  - pose proof (finite_key_lt _ _ _ _ V2 V1 E). order_by_key.
Qed.

Lemma SFcompare_key (x y : spec_float) :
  valid_binary x = true -> valid_binary y = true ->
  SFcompare x y =
  match SFkey x, SFkey y with
  | Some a, Some b => Some (a ?= b)
  | _, _ => None
  end.
Proof.
  intros Vx Vy.
  assert (K : 0 < 2 ^ 2100) by (apply Z.pow_pos_nonneg; lia).
  destruct x as [sx | sx | | sx mx ex], y as [sy | sy | | sy my ey];
    unfold SFcompare, SFkey, valid_binary in *; try reflexivity;
    try pose proof (finite_key_bound _ _ Vx) as Bx;
    try pose proof (finite_key_bound _ _ Vy) as By;
    try pose proof (magnitude_compare _ _ _ _ Vx Vy) as C;
    set (B := 2 ^ 2100) in *;
    try set (a := Zpos mx * 2 ^ (ex + 1074)) in *;
    try set (b := Zpos my * 2 ^ (ey + 1074)) in *;
    f_equal.
  (* zero, infinity and mixed cases: the order is that of the signs *)
  all: try (destruct sx; unfold cond_Zopp; order_by_key).
  all: try (destruct sy; unfold cond_Zopp; order_by_key).
  all: try (destruct sx, sy; unfold cond_Zopp; order_by_key).
  (* two finite numbers *)
  destruct sx, sy; unfold cond_Zopp.
  - rewrite Z.compare_opp, (Z.compare_antisym a b), <- C.
    destruct (ex ?= ey); reflexivity.
  - order_by_key.
  - order_by_key.
  - exact C.
Qed.

Lemma fkey_range (x : float) (a : Z) :
  fkey x = Some a -> - 2 ^ 2100 <= a <= 2 ^ 2100.
Proof.
  unfold fkey. pose proof (Prim2SF_valid x) as V.
  assert (B : 0 < 2 ^ 2100) by (apply Z.pow_pos_nonneg; lia).
  set (K := 2 ^ 2100) in *.
  destruct (Prim2SF x) as [s | s | | s m e]; unfold SFkey; fold K; intros E.
  - assert (a = 0) by congruence. lia.
  - assert (a = if s then - K else K) by congruence. destruct s; lia.
  - discriminate E.
  - pose proof (finite_key_bound _ _ V) as F. fold K in F.
    set (v := Zpos m * 2 ^ (e + 1074)) in *.
    assert (Ha : a = cond_Zopp s v) by congruence.
    destruct s; unfold cond_Zopp in Ha; lia.
Qed.

Lemma compare_key (x y : float) :
  SFcompare (Prim2SF x) (Prim2SF y) =
  match fkey x, fkey y with
  | Some a, Some b => Some (a ?= b)
  | _, _ => None
  end.
Proof. apply SFcompare_key; apply Prim2SF_valid. Qed.

Lemma ltb_key (x y : float) :
  (x <? y)%float =
  match fkey x, fkey y with
  | Some a, Some b => a <? b
  | _, _ => false
  end.
Proof.
  rewrite ltb_spec. unfold SFltb. rewrite compare_key.
  destruct (fkey x) as [a|], (fkey y) as [b|]; reflexivity.
Qed.

Lemma leb_key (x y : float) :
  (x <=? y)%float =
  match fkey x, fkey y with
  | Some a, Some b => a <=? b
  | _, _ => false
  end.
Proof.
  rewrite leb_spec. unfold SFleb. rewrite compare_key.
  destruct (fkey x) as [a|], (fkey y) as [b|]; reflexivity.
Qed.

Lemma eqb_key (x y : float) :
  (x =? y)%float =
  match fkey x, fkey y with
  | Some a, Some b => a =? b
  | _, _ => false
  end.
Proof.
  rewrite eqb_spec. unfold SFeqb. rewrite compare_key.
  destruct (fkey x) as [a|], (fkey y) as [b|]; try reflexivity.
  unfold Z.eqb at 1. destruct (Z.compare_spec a b) as [E | E | E].
  - subst. symmetry. apply Z.eqb_refl.
  - symmetry. apply Z.eqb_neq. lia.
  - symmetry. apply Z.eqb_neq. lia.
Qed.

Lemma npy_lt_key (a b : float) : npy_lt a b = (npy_key a <? npy_key b).
Proof.
  unfold npy_lt, npy_key. rewrite ltb_key, !eqb_key.
  assert (K : 0 < 2 ^ 2100) by (apply Z.pow_pos_nonneg; lia).
  change (2 ^ 2101) with (2 ^ 2100 * 2).
  destruct (fkey a) as [x|] eqn:Ea, (fkey b) as [y|] eqn:Eb;
    try (apply fkey_range in Ea); try (apply fkey_range in Eb);
    set (B := 2 ^ 2100) in *; rewrite ?Z.eqb_refl; cbn [negb andb orb].
  - apply orb_false_r.
  - symmetry. apply Z.ltb_lt. lia.
  - symmetry. apply Z.ltb_ge. lia.
  - symmetry. apply Z.ltb_irrefl.
Qed.

(** *** The confidence estimator *)

Lemma fkey_zero : fkey 0%float = Some 0.
Proof. vm_compute. reflexivity. Qed.

Lemma fkey_one : fkey 1%float = Some (2 ^ 1074).
Proof. vm_compute. reflexivity. Qed.

Lemma is_nan_key (x : float) :
  PrimFloat.is_nan x = false -> exists a, fkey x = Some a.
Proof.
  unfold PrimFloat.is_nan. rewrite eqb_key.
  destruct (fkey x) as [a|]; [eauto | discriminate].
Qed.

Lemma rne_div_bounds (a b n : Z) :
  0 < b -> 0 <= a <= n * b -> 0 <= rne_div a b <= n.
Proof.
  intros Hb Ha. unfold rne_div.
  pose proof (Z.div_mod a b ltac:(lia)) as D.
  pose proof (Z.mod_pos_bound a b Hb) as R.
  set (q := a / b) in *. set (r := a mod b) in *.
  assert (0 <= q) by nia. assert (q <= n) by nia.
  destruct (Z.compare_spec (2 * r) b).
  - assert (q < n) by nia. destruct (Z.even q); lia.
  - lia.
  - assert (q < n) by nia. lia.
Qed.

(** The hundred and one values [round(x, 2)] can take on the unit interval. *)
Lemma hundredths_in_unit (n : Z) :
  0 <= n <= 100 ->
  (0 <=? hundredth n)%float = true /\ (hundredth n <=? 1)%float = true.
Proof.
  intros Hn.
  assert (T : forallb (fun n => (0 <=? hundredth n)%float && (hundredth n <=? 1)%float)
                      (map Z.of_nat (seq 0 101)) = true)
    by (vm_compute; reflexivity).
  rewrite forallb_forall in T.
  apply andb_true_iff. apply T.
  apply in_map_iff. exists (Z.to_nat n). split; [lia|].
  apply in_seq. lia.
Qed.

Lemma py_round_finite (x : float) (m : positive) (e : Z) :
  Prim2SF x = S754_finite false m e ->
  py_round x 2 = hundredth (rne_div (Zpos m * 2 ^ (e + 1074) * 100) (2 ^ 1074)).
Proof.
  intros E. unfold py_round. rewrite E. reflexivity.
Qed.

Lemma positive_key_finite (x : float) (a : Z) :
  fkey x = Some a -> 0 < a < 2 ^ 2100 ->
  exists m e, Prim2SF x = S754_finite false m e /\ a = Zpos m * 2 ^ (e + 1074).
Proof.
  unfold fkey. intros E Ha.
  assert (B : 0 < 2 ^ 2100) by (apply Z.pow_pos_nonneg; lia).
  set (K := 2 ^ 2100) in *.
  destruct (Prim2SF x) as [s | s | | s m e]; unfold SFkey in E; fold K in E.
  - assert (a = 0) by congruence. lia.
  - assert (a = if s then - K else K) by congruence. destruct s; lia.
  - discriminate E.
  - set (v := Zpos m * 2 ^ (e + 1074)) in *.
    assert (Hv : 0 < v).
    { unfold v. apply Z.mul_pos_pos; [lia|]. apply Z.pow_pos_nonneg; [lia|].
      pose proof (Prim2SF_valid x) as V.
      destruct (Z.le_gt_cases 0 (e + 1074)) as [?|N]; [assumption|].
      exfalso. unfold v in *. rewrite (Z.pow_neg_r 2 (e + 1074)) in E by lia.
      rewrite Z.mul_0_r in E. destruct s; unfold cond_Zopp in E; simpl in E;
        assert (a = 0) by congruence; lia. }
    assert (Ha' : a = cond_Zopp s v) by congruence.
    destruct s; unfold cond_Zopp in Ha'; [lia|].
    exists m, e. split; [reflexivity | exact Ha'].
Qed.

Lemma py_round_key (x : float) (a : Z) :
  fkey x = Some a -> 0 < a < 2 ^ 2100 ->
  py_round x 2 = hundredth (rne_div (a * 100) (2 ^ 1074)).
Proof.
  intros E Ha. destruct (positive_key_finite x a E Ha) as (m & e & P & ->).
  apply py_round_finite. exact P.
Qed.

Lemma py_round_unit (x : float) :
  (0 <? x)%float = true -> (x <? 1)%float = true ->
  (0 <=? py_round x 2)%float = true /\ (py_round x 2 <=? 1)%float = true.
Proof.
  rewrite !ltb_key, fkey_zero, fkey_one.
  destruct (fkey x) as [a|] eqn:E; [|discriminate].
  intros H0 H1. apply Z.ltb_lt in H0, H1.
  assert (K : 2 ^ 1074 < 2 ^ 2100) by (apply Z.pow_lt_mono_r; lia).
  rewrite (py_round_key x a E) by lia.
  apply hundredths_in_unit. apply rne_div_bounds; lia.
Qed.

(** [max(0.0, min(1.0, avg))] is [0.0], [1.0], or [avg] itself when [avg]
    lies strictly between them; NaN falls in the second case. *)
Lemma clamp_cases (avg : float) :
  let c := py_max 0%float (py_min 1%float avg) in
  (c = 0%float /\ (0 <? avg)%float = false /\ (avg <? 1)%float = true)
  \/ (c = 1%float /\ (avg <? 1)%float = false)
  \/ (c = avg /\ (0 <? avg)%float = true /\ (avg <? 1)%float = true).
Proof.
  unfold py_max, py_min.
  destruct (avg <? 1)%float eqn:H1.
  - destruct (0 <? avg)%float eqn:H0; auto.
  - right; left. split; reflexivity.
Qed.

Lemma py_round_zero : py_round 0%float 2 = 0%float.
Proof. vm_compute. reflexivity. Qed.

Lemma py_round_one : py_round 1%float 2 = 1%float.
Proof. vm_compute. reflexivity. Qed.

Lemma clamped_round_unit (avg : float) :
  let r := py_round (py_max 0%float (py_min 1%float avg)) 2 in
  (0 <=? r)%float = true /\ (r <=? 1)%float = true.
Proof.
  destruct (clamp_cases avg) as [(-> & _) | [(-> & _) | (-> & H0 & H1)]].
  - rewrite py_round_zero. split; reflexivity.
  - rewrite py_round_one. split; reflexivity.
  - apply py_round_unit; assumption.
Qed.

(** [sum] carries its compensation: on 0.1, 0.2 and 0.075 it is 0.375, where
    adding from left to right gives 0.37500000000000006, and the confidence
    of the three is 0.12, where the plain sum would give 0.13. *)
Lemma py_sum_compensated :
  py_sum [0.1%float; 0.2%float; 0.075%float] = 0.375%float
  /\ fold_left PrimFloat.add [0.1%float; 0.2%float; 0.075%float] 0%float
     = 0.37500000000000006%float
  /\ rag_graph.compute_confidence [0.1%float; 0.2%float; 0.075%float]
     = 0.12%float
  /\ py_round (0.37500000000000006 / 3)%float 2 = 0.13%float.
Proof. repeat split; vm_compute; reflexivity. Qed.






(** *** The similarity score of the specification *)

Section SimilarityScore.
Local Open Scope R_scope.









End SimilarityScore.

(** *** Sorted lists *)

Lemma StronglySorted_app_one {A : Type} (R : A -> A -> Prop)
      (l : list A) (a : A) :
  StronglySorted R l -> Forall (fun x => R x a) l ->
  StronglySorted R (l ++ [a]).
Proof.
  induction l as [|b l IH]; intros S F; cbn [app].
  - repeat constructor.
  - inversion S as [|? ? S' F']; subst. inversion F; subst.
    constructor; [apply IH; assumption|].
    apply Forall_app. split; [assumption | repeat constructor; assumption].
Qed.

Section StronglySortedFacts.
Context {A : Type}.
Variable R : A -> A -> Prop.

Lemma StronglySorted_skipn (n : nat) (l : list A) :
  StronglySorted R l -> StronglySorted R (skipn n l).
Proof.
  revert l. induction n as [|n IH]; intros l S; [exact S|].
  destruct l as [|a l]; [constructor|].
  cbn [skipn]. apply IH. inversion S; assumption.
Qed.

Lemma StronglySorted_rev (l : list A) :
  StronglySorted R l -> StronglySorted (fun x y => R y x) (rev l).
Proof.
  induction 1 as [|a l S IH F]; cbn [rev]; [constructor|].
  apply StronglySorted_app_one; [exact IH|].
  apply Forall_rev. exact F.
Qed.

Lemma StronglySorted_map_in {B : Type} (R' : B -> B -> Prop) (f : A -> B)
      (l : list A) :
  (forall x y, In x l -> In y l -> R x y -> R' (f x) (f y)) ->
  StronglySorted R l -> StronglySorted R' (map f l).
Proof.
  intros H S. induction S as [|a l S IH F]; cbn [map]; [constructor|].
  constructor.
  - apply IH. intros x y Hx Hy. apply H; right; assumption.
  - apply Forall_map. rewrite Forall_forall in *. intros y Hy.
    apply H; [left; reflexivity | right; assumption | apply F; assumption].
Qed.
End StronglySortedFacts.

Lemma StronglySorted_impl_in {A : Type} (R R' : A -> A -> Prop) (l : list A) :
  (forall x y, In x l -> In y l -> R x y -> R' x y) ->
  StronglySorted R l -> StronglySorted R' l.
Proof.
  intros H S. rewrite <- (map_id l).
  apply (StronglySorted_map_in R R' (fun x => x)); assumption.
Qed.

Lemma StronglySorted_and {A : Type} (R1 R2 : A -> A -> Prop) (l : list A) :
  StronglySorted R1 l -> StronglySorted R2 l ->
  StronglySorted (fun x y => R1 x y /\ R2 x y) l.
Proof.
  induction 1 as [|a l S1 IH F1]; intros S2; [constructor|].
  inversion S2 as [|? ? S2' F2]; subst. constructor; [apply IH; exact S2'|].
  rewrite Forall_forall in *. intros y Hy. split; [apply F1 | apply F2]; exact Hy.
Qed.

(** Two sorted arrangements of the same elements are the same list, when no
    two distinct elements are each before the other. *)
Lemma sorted_perm_unique {A : Type} (R : A -> A -> Prop) (l1 l2 : list A) :
  (forall x y, In x l1 -> In y l1 -> R x y -> R y x -> x = y) ->
  StronglySorted R l1 -> StronglySorted R l2 -> Permutation l1 l2 -> l1 = l2.
Proof.
  revert l2. induction l1 as [|a l1 IH]; intros l2 Anti S1 S2 Pm.
  - apply Permutation_nil in Pm. subst. reflexivity.
  - destruct l2 as [|b l2];
      [apply Permutation_sym, Permutation_nil in Pm; discriminate|].
    inversion S1 as [|? ? S1' F1]; inversion S2 as [|? ? S2' F2]; subst.
    assert (E : a = b).
    { assert (Ha : In a (b :: l2))
        by (apply (Permutation_in _ Pm); left; reflexivity).
      assert (Hb : In b (a :: l1))
        by (apply (Permutation_in _ (Permutation_sym Pm)); left; reflexivity).
      destruct Ha as [Ha | Ha]; [symmetry; exact Ha|].
      destruct Hb as [Hb | Hb]; [exact Hb|].
      rewrite Forall_forall in F1, F2.
      apply Anti; [left; reflexivity | right; exact Hb | |].
      - apply F1. exact Hb.
      - apply F2. exact Ha. }
    subst b. f_equal. apply IH; try assumption.
    + intros x y Hx Hy. apply Anti; right; assumption.
    + apply (Permutation_cons_inv Pm).
Qed.

Lemma position_nth (idx : list nat) (i : nat) :
  In i idx -> nth_error idx (position idx i) = Some i.
Proof.
  induction idx as [|j idx IH]; intros H; [destruct H|].
  cbn [position]. destruct (Nat.eqb_spec j i) as [-> | N]; [reflexivity|].
  destruct H as [H | H]; [contradiction|]. cbn [nth_error]. apply IH. exact H.
Qed.

Lemma position_sorted (idx : list nat) :
  NoDup idx ->
  StronglySorted (fun i j => (position idx i <= position idx j)%nat) idx.
Proof.
  induction 1 as [|x idx Hx N IH]; [constructor|].
  constructor.
  - apply (StronglySorted_impl_in
             (fun i j => (position idx i <= position idx j)%nat)); [|exact IH].
    intros i j Hi Hj L. cbv beta in L. cbn [position].
    destruct (Nat.eqb_spec x i) as [-> | _]; [contradiction|].
    destruct (Nat.eqb_spec x j) as [-> | _]; [contradiction|]. lia.
  - apply Forall_forall. intros j Hj. cbn [position].
    rewrite Nat.eqb_refl. lia.
Qed.

(** *** argsort sorts, whatever the order of equal scores *)

Lemma insert_pair_perm (rank : nat -> nat) (p : nat * float)
      (l : list (nat * float)) :
  Permutation (insert_pair rank p l) (p :: l).
Proof.
  induction l as [|q l IH]; cbn [insert_pair]; [reflexivity|].
  destruct (pair_before rank q p); [|reflexivity].
  rewrite IH. apply perm_swap.
Qed.

Lemma sort_pairs_perm (rank : nat -> nat) (l : list (nat * float)) :
  Permutation (sort_pairs rank l) l.
Proof.
  induction l as [|p l IH]; cbn [sort_pairs]; [reflexivity|].
  rewrite insert_pair_perm. constructor. exact IH.
Qed.

Lemma pair_before_spec (rank : nat -> nat) (q p : nat * float) :
  pair_before rank q p = true <->
  npy_key (snd q) < npy_key (snd p)
  \/ (npy_key (snd q) = npy_key (snd p) /\ (rank (fst q) < rank (fst p))%nat).
Proof.
  unfold pair_before. rewrite !npy_lt_key.
  rewrite orb_true_iff, andb_true_iff, negb_true_iff, Z.ltb_lt, Z.ltb_ge,
    Nat.ltb_lt.
  lia.
Qed.

Lemma pair_le_trans (rank : nat -> nat) (p q r : nat * float) :
  pair_le rank p q -> pair_le rank q r -> pair_le rank p r.
Proof. unfold pair_le. lia. Qed.

Lemma insert_pair_sorted (rank : nat -> nat) (p : nat * float)
      (l : list (nat * float)) :
  StronglySorted (pair_le rank) l ->
  StronglySorted (pair_le rank) (insert_pair rank p l).
Proof.
  induction 1 as [|q l S IH F]; cbn [insert_pair].
  - repeat constructor.
  - pose proof (pair_before_spec rank q p) as B.
    destruct (pair_before rank q p).
    + assert (Hqp : pair_le rank q p)
        by (destruct B as [B _]; specialize (B eq_refl); unfold pair_le; lia).
      constructor; [exact IH|].
      rewrite (insert_pair_perm rank p l). constructor; [exact Hqp | exact F].
    + assert (Hpq : pair_le rank p q).
      { unfold pair_le.
        assert (N : ~ (npy_key (snd q) < npy_key (snd p)
                       \/ (npy_key (snd q) = npy_key (snd p)
                           /\ (rank (fst q) < rank (fst p))%nat)))
          by (intros C; apply B in C; discriminate C).
        lia. }
      constructor; [constructor; assumption|].
      constructor; [exact Hpq|].
      rewrite Forall_forall in *. intros r Hr.
      apply (pair_le_trans rank p q r Hpq). apply F. exact Hr.
Qed.

Lemma sort_pairs_sorted (rank : nat -> nat) (l : list (nat * float)) :
  StronglySorted (pair_le rank) (sort_pairs rank l).
Proof.
  induction l as [|p l IH]; cbn [sort_pairs]; [constructor|].
  apply insert_pair_sorted. exact IH.
Qed.

Lemma combine_seq_nth {A : Type} (l : list A) (start i : nat) (x : A) :
  In (i, x) (combine (seq start (List.length l)) l) ->
  (start <= i)%nat /\ nth_error l (i - start) = Some x.
Proof.
  revert start. induction l as [|a l IH]; intros start; cbn; [tauto|].
  intros [E | H].
  - injection E as <- <-. rewrite Nat.sub_diag. split; [lia | reflexivity].
  - apply IH in H. destruct H as [H1 H2]. split; [lia|].
    replace (i - start)%nat with (S (i - S start)) by lia. exact H2.
Qed.

Lemma enumerate_nth {A : Type} (l : list A) (i : nat) (x : A) :
  In (i, x) (enumerate l) -> nth_error l i = Some x.
Proof.
  intros H. apply combine_seq_nth in H. rewrite Nat.sub_0_r in H. apply H.
Qed.

Lemma map_fst_enumerate {A : Type} (l : list A) :
  map fst (enumerate l) = seq 0 (List.length l).
Proof.
  unfold enumerate. generalize 0%nat.
  induction l as [|a l IH]; intros start; cbn; [reflexivity|].
  f_equal. apply IH.
Qed.

Lemma sorted_pair_score (rank : nat -> nat) (scores : list float)
      (p : nat * float) :
  In p (sort_pairs rank (enumerate scores)) ->
  (fst p < List.length scores)%nat /\ score_at scores (fst p) = snd p.
Proof.
  destruct p as [i v]. intros H.
  apply (Permutation_in _ (sort_pairs_perm _ _)) in H.
  apply enumerate_nth in H. cbn [fst snd]. split.
  - apply nth_error_Some. congruence.
  - unfold score_at. apply nth_error_nth. exact H.
Qed.

Lemma argsort_perm (P : providers) (scores : list float) :
  Permutation (argsort P scores) (seq 0 (List.length scores)).
Proof.
  unfold argsort. rewrite <- map_fst_enumerate.
  apply Permutation_map. apply sort_pairs_perm.
Qed.

Lemma length_argsort (P : providers) (scores : list float) :
  List.length (argsort P scores) = List.length scores.
Proof.
  rewrite (Permutation_length (argsort_perm P scores)). apply length_seq.
Qed.

Lemma argsort_in_range (P : providers) (scores : list float) (i : nat) :
  In i (argsort P scores) -> (i < List.length scores)%nat.
Proof.
  intros H. apply (Permutation_in _ (argsort_perm P scores)) in H.
  apply in_seq in H. lia.
Qed.

(** The scores at the indices of [argsort] ascend, in numpy's order. *)
Lemma argsort_sorted (P : providers) (scores : list float) :
  StronglySorted
    (fun i j => npy_key (score_at scores i) <= npy_key (score_at scores j))
    (argsort P scores).
Proof.
  unfold argsort.
  apply (StronglySorted_map_in (pair_le (tie_rank P scores))).
  - intros x y Hx Hy L.
    rewrite (proj2 (sorted_pair_score _ _ _ Hx)),
            (proj2 (sorted_pair_score _ _ _ Hy)).
    unfold pair_le in L. lia.
  - apply sort_pairs_sorted.
Qed.

Lemma enumerate_map (scores : list float) :
  enumerate scores
  = map (fun i => (i, score_at scores i)) (seq 0 (List.length scores)).
Proof.
  unfold enumerate, score_at.
  assert (G : forall l s,
             combine (seq s (List.length l)) l
             = map (fun i => (i, nth (i - s) l nan)) (seq s (List.length l))).
  { induction l as [|a l IH]; intros s; [reflexivity|].
    cbn [List.length seq combine map]. rewrite Nat.sub_diag. cbn [nth].
    f_equal. rewrite IH. apply map_ext_in. intros i Hi. apply in_seq in Hi.
    replace (i - s)%nat with (S (i - S s)) by lia. reflexivity. }
  rewrite G. apply map_ext. intros i. rewrite Nat.sub_0_r. reflexivity.
Qed.

(** No sort is left out: every order of the indices in which the scores
    ascend is the [argsort] of the providers whose sort ranks the indices by
    their place in that order. *)
Lemma argsort_any_order (P : providers) (scores : list float) (idx : list nat) :
  Permutation idx (seq 0 (List.length scores)) ->
  StronglySorted
    (fun i j => npy_key (score_at scores i) <= npy_key (score_at scores j)) idx ->
  (forall i, tie_rank P scores i = position idx i) ->
  argsort P scores = idx.
Proof.
  intros Pm S T. unfold argsort.
  set (rank := tie_rank P scores) in *.
  set (f := fun i => (i, score_at scores i)).
  assert (N : NoDup idx)
    by (apply (Permutation_NoDup (Permutation_sym Pm)); apply seq_NoDup).
  assert (E : sort_pairs rank (enumerate scores) = map f idx).
  { apply (sorted_perm_unique (pair_le rank)).
    - intros p q Hp Hq L1 L2.
      destruct (sorted_pair_score _ _ _ Hp) as [Rp Ep].
      destruct (sorted_pair_score _ _ _ Hq) as [Rq Eq].
      assert (Ip : In (fst p) idx)
        by (apply (Permutation_in _ (Permutation_sym Pm)); apply in_seq; lia).
      assert (Iq : In (fst q) idx)
        by (apply (Permutation_in _ (Permutation_sym Pm)); apply in_seq; lia).
      assert (Er : rank (fst p) = rank (fst q)) by (unfold pair_le in *; lia).
      rewrite !T in Er.
      assert (Ef : fst p = fst q).
      { pose proof (position_nth idx (fst p) Ip) as A1.
        pose proof (position_nth idx (fst q) Iq) as A2.
        rewrite Er in A1. congruence. }
      destruct p as [i x], q as [j y]. cbn [fst snd] in *. congruence.
    - apply sort_pairs_sorted.
    - apply (StronglySorted_map_in
               (fun i j => npy_key (score_at scores i) <= npy_key (score_at scores j)
                           /\ (position idx i <= position idx j)%nat)).
      + intros i j _ _ [L1 L2]. unfold pair_le, f. cbn [fst snd].
        rewrite !T. lia.
      + apply StronglySorted_and; [exact S | apply position_sorted; exact N].
    - rewrite sort_pairs_perm, enumerate_map. apply Permutation_sym.
      apply Permutation_map. exact Pm. }
  rewrite E, map_map. cbn [f fst]. apply map_id.
Qed.

(** The order of equal scores is the sort's: on the scores 1, 1, 0, 0, asked
    for all four, the sort that keeps the index order makes [retrieve]
    select the indices 1, 0, 3, 2, and the sort that prefers the greater
    index 0, 1, 2, 3. *)
Lemma top_idx_of_equal_scores :
  retriever.top_idx fake [1%float; 1%float; 0%float; 0%float] 4
  = [1; 0; 3; 2]%nat
  /\ retriever.top_idx greater_first [1%float; 1%float; 0%float; 0%float] 4
     = [0; 1; 2; 3]%nat.
Proof. split; vm_compute; reflexivity. Qed.

(** *** The selected indices *)

Lemma slice_from_eq {A : Type} (start : Z) (l : list A) :
  exists n, slice_from start l = skipn n l.
Proof. unfold slice_from. eexists. reflexivity. Qed.

Lemma length_top_idx (P : providers) (scores : list float) (k : Z) :
  let n := Z.of_nat (List.length scores) in
  Z.of_nat (List.length (retriever.top_idx P scores k)) =
  if 0 <? k then Z.min k n else Z.max (n + k) 0.
Proof.
  unfold retriever.top_idx, slice_from.
  rewrite length_rev, length_skipn, length_argsort.
  destruct (0 <? k) eqn:K.
  - apply Z.ltb_lt in K.
    replace (- k <? 0) with true by (symmetry; apply Z.ltb_lt; lia). lia.
  - apply Z.ltb_ge in K.
    replace (- k <? 0) with false by (symmetry; apply Z.ltb_ge; lia). lia.
Qed.

Lemma top_idx_in_range (P : providers) (scores : list float) (k : Z) (i : nat) :
  In i (retriever.top_idx P scores k) -> (i < List.length scores)%nat.
Proof.
  unfold retriever.top_idx. intros H. apply in_rev in H.
  destruct (slice_from_eq (- k) (argsort P scores)) as [n E]. rewrite E in H.
  apply (argsort_in_range P). rewrite <- (firstn_skipn n (argsort P scores)).
  apply in_or_app. right. exact H.
Qed.

(** The scores at the selected indices descend, in numpy's order. *)
Lemma top_idx_descending (P : providers) (scores : list float) (k : Z) :
  StronglySorted (scored_at_least scores) (retriever.top_idx P scores k).
Proof.
  unfold retriever.top_idx.
  destruct (slice_from_eq (- k) (argsort P scores)) as [n ->].
  apply (StronglySorted_rev
           (fun i j => npy_key (score_at scores i) <= npy_key (score_at scores j))).
  apply StronglySorted_skipn. apply argsort_sorted.
Qed.

Lemma top_scores_descending (P : providers) (scores : list float) (k : Z) :
  StronglySorted (fun x y => npy_key y <= npy_key x)
                 (map (score_at scores) (retriever.top_idx P scores k)).
Proof.
  apply (StronglySorted_map_in (scored_at_least scores)).
  - intros i j _ _ L. exact L.
  - apply top_idx_descending.
Qed.

Lemma npy_key_leb (x y : float) :
  PrimFloat.is_nan x = false -> PrimFloat.is_nan y = false ->
  npy_key y <= npy_key x -> (y <=? x)%float = true.
Proof.
  intros Nx Ny. destruct (is_nan_key x Nx) as [a Ea], (is_nan_key y Ny) as [b Eb].
  unfold npy_key. rewrite leb_key, Ea, Eb. apply Z.leb_le.
Qed.

(** *** List comprehensions over [l[i]] *)

Lemma comprehension_getitem {A : Type} (l : list A) (d : A) (idx : list nat) :
  Forall (fun i => (i < List.length l)%nat) idx ->
  comprehension (getitem l) idx = Returns (map (fun i => nth i l d) idx).
Proof.
  induction 1 as [|i idx Hi _ IH]; cbn [comprehension map]; [reflexivity|].
  unfold getitem at 1. apply nth_error_Some in Hi.
  destruct (nth_error l i) as [a|] eqn:E; [|congruence].
  rewrite IH. rewrite (nth_error_nth _ _ d E). reflexivity.
Qed.

Lemma comprehension_getitem_inv {A : Type} (l : list A) (d : A)
      (idx : list nat) (out : list A) :
  comprehension (getitem l) idx = Returns out ->
  Forall (fun i => (i < List.length l)%nat) idx
  /\ out = map (fun i => nth i l d) idx.
Proof.
  revert out. induction idx as [|i idx IH]; cbn [comprehension map]; intros out H.
  - injection H as <-. split; constructor.
  - unfold getitem at 1 in H.
    destruct (nth_error l i) as [a|] eqn:E; [|discriminate].
    destruct (comprehension (getitem l) idx) as [bs|]; [|discriminate].
    injection H as <-. destruct (IH bs eq_refl) as [F ->].
    split.
    + constructor; [|exact F]. apply nth_error_Some. congruence.
    + rewrite (nth_error_nth _ _ d E). reflexivity.
Qed.

Lemma nth_map_incl {A : Type} (l : list A) (d : A) (idx : list nat) :
  Forall (fun i => (i < List.length l)%nat) idx ->
  incl (map (fun i => nth i l d) idx) l.
Proof.
  intros F x Hx. apply in_map_iff in Hx. destruct Hx as (i & <- & Hi).
  rewrite Forall_forall in F. apply nth_In. apply F. exact Hi.
Qed.

(** *** Running [retrieve] *)

Lemma get_embeddings_model_ready (P : providers) (w : world) :
  model_ready P w ->
  retriever.get_embeddings_model P w =
  (Returns tt,
   mkWorld true (llm w) (DOCUMENTS w) (DOC_EMBEDDINGS w) (calls w)).
Proof.
  unfold model_ready, retriever.get_embeddings_model.
  destruct w as [em l d de c]; cbn. intros [-> | ->]; [reflexivity|].
  destruct em; reflexivity.
Qed.

Lemma retrieve_run (P : providers) (query : str) (documents : list str)
      (doc_embeddings : option (list vec)) (k : Z) (w : world) (v : vec) :
  model_ready P w ->
  embed_query P (calls w) query = Returns v ->
  retriever.retrieve P query documents doc_embeddings k w =
  (select P v documents doc_embeddings k, after_embedding w (EmbedQuery query)).
Proof.
  intros R E. unfold retriever.retrieve, bind.
  rewrite (get_embeddings_model_ready P w R).
  unfold external. cbn [calls embeddings_model llm DOCUMENTS DOC_EMBEDDINGS].
  rewrite E. unfold select, lift, ret, after_embedding.
  destruct (cosine_similarity P v doc_embeddings) as [scores|]; [|reflexivity].
  destruct (comprehension (getitem documents) _) as [td|]; [|reflexivity].
  destruct (comprehension (getitem scores) _) as [ts|]; reflexivity.
Qed.

Lemma retrieve_inv (P : providers) (query : str) (documents : list str)
      (doc_embeddings : option (list vec)) (k : Z) (w w' : world)
      (top_docs : list str) (top_scores : list float) :
  retriever.retrieve P query documents doc_embeddings k w
  = (Returns (top_docs, top_scores), w') ->
  exists v,
    model_ready P w
    /\ embed_query P (calls w) query = Returns v
    /\ select P v documents doc_embeddings k = Returns (top_docs, top_scores)
    /\ w' = after_embedding w (EmbedQuery query).
Proof.
  intros H.
  assert (R : model_ready P w).
  { unfold retriever.retrieve, bind, retriever.get_embeddings_model in H.
    unfold model_ready.
    destruct (embeddings_model w); [left; reflexivity|].
    destruct (OpenAIEmbeddings P) as [[]|]; [right; reflexivity | discriminate]. }
  destruct (embed_query P (calls w) query) as [v|e] eqn:E.
  - rewrite (retrieve_run _ _ _ _ _ _ v R E) in H.
    injection H as H1 H2. exists v. auto.
  - exfalso. unfold retriever.retrieve, bind in H.
    rewrite (get_embeddings_model_ready P w R) in H.
    unfold external in H. cbn [calls] in H. rewrite E in H. discriminate.
Qed.

Lemma select_inv (P : providers) (v : vec) (documents : list str)
      (doc_embeddings : option (list vec)) (k : Z)
      (top_docs : list str) (top_scores : list float) :
  select P v documents doc_embeddings k = Returns (top_docs, top_scores) ->
  exists scores,
    cosine_similarity P v doc_embeddings = Returns scores
    /\ Forall (fun i => (i < List.length documents)%nat)
              (retriever.top_idx P scores k)
    /\ top_docs = map (fun i => nth i documents []) (retriever.top_idx P scores k)
    /\ top_scores = map (score_at scores) (retriever.top_idx P scores k).
Proof.
  unfold select. intros H.
  destruct (cosine_similarity P v doc_embeddings) as [scores|]; [|discriminate].
  destruct (comprehension (getitem documents) _) as [td|] eqn:D; [|discriminate].
  destruct (comprehension (getitem scores) _) as [ts|] eqn:S; [|discriminate].
  injection H as <- <-.
  destruct (comprehension_getitem_inv _ [] _ _ D) as [F ->].
  destruct (comprehension_getitem_inv _ nan _ _ S) as [_ ->].
  exists scores. auto.
Qed.

Lemma select_returns (P : providers) (v : vec) (documents : list str)
      (doc_embeddings : option (list vec)) (k : Z) (scores : list float) :
  cosine_similarity P v doc_embeddings = Returns scores ->
  (List.length scores <= List.length documents)%nat ->
  select P v documents doc_embeddings k =
  Returns (map (fun i => nth i documents []) (retriever.top_idx P scores k),
           map (score_at scores) (retriever.top_idx P scores k)).
Proof.
  intros C L. unfold select. rewrite C.
  assert (F : Forall (fun i => (i < List.length scores)%nat)
                     (retriever.top_idx P scores k))
    by (apply Forall_forall; intros i; apply top_idx_in_range).
  rewrite (comprehension_getitem documents []).
  - rewrite (comprehension_getitem scores nan _ F). reflexivity.
  - eapply Forall_impl; [|exact F]. cbn. intros; lia.
Qed.

(** *** Running [rag] *)

Lemma get_llm_ready (P : providers) (w : world) :
  llm_ready P w ->
  generator.get_llm P w =
  (Returns tt,
   mkWorld (embeddings_model w) true (DOCUMENTS w) (DOC_EMBEDDINGS w) (calls w)).
Proof.
  unfold llm_ready, generator.get_llm.
  destruct w as [em l d de c]; cbn. intros [-> | ->]; [reflexivity|].
  destruct l; reflexivity.
Qed.

Lemma generate_answer_run (P : providers) (question context : str) (w : world) :
  llm_ready P w ->
  generator.generate_answer P question context w =
  (chat_invoke P (calls w) SYSTEM (generator.prompt question context),
   after_generation w (ChatInvoke SYSTEM (generator.prompt question context))).
Proof.
  intros R. unfold generator.generate_answer, bind.
  rewrite (get_llm_ready P w R). reflexivity.
Qed.

Lemma generate_answer_inv (P : providers) (question context : str)
      (w w' : world) (answer : str) :
  generator.generate_answer P question context w = (Returns answer, w') ->
  llm_ready P w
  /\ chat_invoke P (calls w) SYSTEM (generator.prompt question context)
     = Returns answer
  /\ w' = after_generation w (ChatInvoke SYSTEM (generator.prompt question context)).
Proof.
  intros H.
  assert (R : llm_ready P w).
  { unfold generator.generate_answer, bind, generator.get_llm in H.
    unfold llm_ready. destruct (llm w); [left; reflexivity|].
    destruct (ChatOpenAI P) as [[]|]; [right; reflexivity | discriminate]. }
  rewrite (generate_answer_run P _ _ w R) in H. injection H as H1 H2. auto.
Qed.

Lemma rag_run (P : providers) (question : str) (documents : list str)
      (doc_embeddings : option (list vec)) (k : Z) (w : world) (v : vec)
      (top_docs : list str) (top_scores : list float) :
  model_ready P w ->
  embed_query P (calls w) question = Returns v ->
  select P v documents doc_embeddings k = Returns (top_docs, top_scores) ->
  llm_ready P w ->
  let human := generator.prompt question (join [10%N] top_docs) in
  rag_graph.rag P question documents doc_embeddings k w =
  (match chat_invoke P (calls w ++ [EmbedQuery question]) SYSTEM human with
   | Returns answer =>
       Returns (answer, top_docs, rag_graph.compute_confidence top_scores)
   | Raises e => Raises e
   end,
   after_generation (after_embedding w (EmbedQuery question))
                    (ChatInvoke SYSTEM human)).
Proof.
  intros R E S L human. unfold rag_graph.rag, bind.
  rewrite (retrieve_run _ _ _ _ _ _ v R E), S.
  rewrite generate_answer_run by exact L.
  cbn [after_embedding calls]. fold human.
  destruct (chat_invoke P _ SYSTEM human); reflexivity.
Qed.

Lemma rag_inv (P : providers) (question : str) (documents : list str)
      (doc_embeddings : option (list vec)) (k : Z) (w w' : world)
      (answer : str) (ctxs : list str) (conf : float) :
  rag_graph.rag P question documents doc_embeddings k w
  = (Returns (answer, ctxs, conf), w') ->
  exists v sim_scores,
    model_ready P w
    /\ embed_query P (calls w) question = Returns v
    /\ select P v documents doc_embeddings k = Returns (ctxs, sim_scores)
    /\ conf = rag_graph.compute_confidence sim_scores
    /\ llm_ready P w
    /\ w' = after_generation
              (after_embedding w (EmbedQuery question))
              (ChatInvoke SYSTEM (generator.prompt question (join [10%N] ctxs))).
Proof.
  intros H. unfold rag_graph.rag, bind in H.
  destruct (retriever.retrieve P question documents doc_embeddings k w)
    as [[[td ts]|e] w1] eqn:Rt; [|discriminate].
  destruct (retrieve_inv _ _ _ _ _ _ _ _ _ Rt) as (v & R & E & S & ->).
  destruct (generator.generate_answer P question (join [10%N] td) _)
    as [[a|e] w2] eqn:G; [|discriminate].
  destruct (generate_answer_inv _ _ _ _ _ _ G) as (L & _ & ->).
  unfold ret in H. injection H as <- <- <- <-.
  exists v, ts. repeat split; auto.
Qed.

Lemma new_calls_app (w w' : world) (cs : list call) :
  calls w' = calls w ++ cs -> new_calls w w' = cs.
Proof.
  unfold new_calls. intros ->. rewrite skipn_app, skipn_all, Nat.sub_diag.
  reflexivity.
Qed.

(** *** Retrieval: how many, in which order, from where *)

Lemma retrieve_length (P : providers) (query : str) (documents : list str)
      (doc_embeddings : option (list vec)) (k : Z) (w w' : world)
      (top_docs : list str) (top_scores : list float) :
  retriever.retrieve P query documents doc_embeddings k w
  = (Returns (top_docs, top_scores), w') ->
  exists v scores,
    embed_query P (calls w) query = Returns v
    /\ cosine_similarity P v doc_embeddings = Returns scores
    /\ List.length top_docs = List.length top_scores
    /\ Z.of_nat (List.length top_docs) =
       let n := Z.of_nat (List.length scores) in
       if 0 <? k then Z.min k n else Z.max (n + k) 0.
Proof.
  intros H. destruct (retrieve_inv _ _ _ _ _ _ _ _ _ H) as (v & _ & E & S & _).
  destruct (select_inv _ _ _ _ _ _ _ S) as (scores & C & _ & -> & ->).
  exists v, scores. rewrite !length_map. repeat split; auto.
  apply length_top_idx.
Qed.

(** C1. With [k = 0] the slice [[-k:]] is the whole array: on a corpus of two
    documents [retrieve] returns both, best first, where [min(k, corpus
    size)] is zero. *)
Theorem retrieve_k0_returns_whole_corpus :
  fst (retriever.retrieve fake mammals two_documents corpus_rows 0 loaded)
  = Returns (two_documents, [1%float; 0%float])
  /\ Z.min 0 (Z.of_nat (List.length two_documents)) = 0.
Proof. split; vm_compute; reflexivity. Qed.

(** C3, as the code has it. What [retrieve] returns is ordered by
    non-increasing score (in numpy's order, which puts NaN above every
    number, and in the order of [<=] when no score is NaN), each document
    next to its own score.  This holds whatever order the sort leaves equal
    scores in; the code breaks no tie itself. *)
Theorem retrieve_ordering (P : providers) (query : str) (documents : list str)
        (doc_embeddings : option (list vec)) (k : Z) (w w' : world)
        (top_docs : list str) (top_scores : list float) :
  retriever.retrieve P query documents doc_embeddings k w
  = (Returns (top_docs, top_scores), w') ->
  StronglySorted (fun x y => npy_key y <= npy_key x) top_scores
  /\ (Forall (fun x => PrimFloat.is_nan x = false) top_scores ->
      StronglySorted (fun x y => (y <=? x)%float = true) top_scores)
  /\ exists v scores,
      embed_query P (calls w) query = Returns v
      /\ cosine_similarity P v doc_embeddings = Returns scores
      /\ top_docs = map (fun i => nth i documents []) (retriever.top_idx P scores k)
      /\ top_scores = map (score_at scores) (retriever.top_idx P scores k)
      /\ StronglySorted (scored_at_least scores) (retriever.top_idx P scores k).
Proof.
  intros H. destruct (retrieve_inv _ _ _ _ _ _ _ _ _ H) as (v & _ & E & S & _).
  destruct (select_inv _ _ _ _ _ _ _ S) as (scores & C & _ & -> & ->).
  pose proof (top_scores_descending P scores k) as D.
  split; [exact D|]. split.
  - intros N. rewrite <- (map_id (map _ _)).
    apply (StronglySorted_map_in (fun x y => npy_key y <= npy_key x)); [|exact D].
    rewrite Forall_forall in N. intros x y Hx Hy L.
    apply npy_key_leb; auto.
  - exists v, scores. repeat split; auto. apply top_idx_descending.
Qed.

Lemma retrieve_ordering_witness :
  StronglySorted (fun x y => npy_key y <= npy_key x) [1%float; 0%float].
Proof.
  apply (retrieve_ordering fake mammals two_documents corpus_rows 2 loaded
           (after_embedding loaded (EmbedQuery mammals))
           two_documents [1%float; 0%float]).
  vm_compute. reflexivity.
Defined.

(** C3, as the specification has it, fails where the sort keeps equal scores
    in index order, as numpy's insertion sort does on a short array: on two
    documents with the same score, asked for both, [retrieve] puts index 1
    before index 0. *)
Lemma retrieve_tie_counterexample :
  retriever.top_idx fake [1%float; 1%float] 2 = [1%nat; 0%nat]
  /\ ranked_as_specified [1%float; 1%float]
                         (retriever.top_idx fake [1%float; 1%float] 2) = false
  /\ fst (retriever.retrieve fake mammals two_documents tied_rows 2 loaded)
     = Returns ([nth 1 two_documents []; nth 0 two_documents []],
                [1%float; 1%float]).
Proof. repeat split; vm_compute; reflexivity. Qed.

(** C10. Every context [rag] returns is one of the input documents, and
    there are as many contexts as scores given to [compute_confidence];
    with [1 <= k <= corpus size] and providers that answer, [rag] returns,
    and returns exactly [k] of each. *)
Theorem rag_contexts_selected (P : providers) (question : str)
        (documents : list str) (doc_embeddings : option (list vec)) (k : Z)
        (w : world) :
  (forall answer ctxs conf w',
      rag_graph.rag P question documents doc_embeddings k w
      = (Returns (answer, ctxs, conf), w') ->
      incl ctxs documents
      /\ exists sim_scores,
          fst (retriever.retrieve P question documents doc_embeddings k w)
          = Returns (ctxs, sim_scores)
          /\ conf = rag_graph.compute_confidence sim_scores
          /\ List.length ctxs = List.length sim_scores)
  /\ (forall v scores ans,
         model_ready P w ->
         embed_query P (calls w) question = Returns v ->
         cosine_similarity P v doc_embeddings = Returns scores ->
         List.length scores = List.length documents ->
         1 <= k <= Z.of_nat (List.length documents) ->
         llm_ready P w ->
         (forall context,
             chat_invoke P (calls w ++ [EmbedQuery question]) SYSTEM
                         (generator.prompt question context) = Returns ans) ->
         exists ctxs sim_scores w',
           rag_graph.rag P question documents doc_embeddings k w
           = (Returns (ans, ctxs, rag_graph.compute_confidence sim_scores), w')
           /\ incl ctxs documents
           /\ List.length ctxs = Z.to_nat k
           /\ List.length sim_scores = Z.to_nat k).
Proof.
  split.
  - intros answer ctxs conf w' H.
    destruct (rag_inv _ _ _ _ _ _ _ _ _ _ H) as (v & ts & R & E & S & -> & _ & _).
    destruct (select_inv _ _ _ _ _ _ _ S) as (scores & C & F & Hd & Hs).
    split.
    + rewrite Hd. apply nth_map_incl. exact F.
    + exists ts. rewrite (retrieve_run _ _ _ _ _ _ v R E), S.
      repeat split; auto. rewrite Hd, Hs, !length_map. reflexivity.
  - intros v scores ans R E C Ln Hk L G.
    pose proof (select_returns P v documents doc_embeddings k scores C
                               ltac:(lia)) as S.
    eexists _, _, _. split; [|split; [|split]].
    + rewrite (rag_run _ _ _ _ _ _ _ _ _ R E S L). rewrite G. reflexivity.
    + apply nth_map_incl. apply Forall_forall. intros i Hi.
      rewrite <- Ln. exact (top_idx_in_range P scores k i Hi).
    + rewrite length_map. pose proof (length_top_idx P scores k) as T.
      cbv zeta in T. replace (0 <? k) with true in T
        by (symmetry; apply Z.ltb_lt; lia). lia.
    + rewrite length_map. pose proof (length_top_idx P scores k) as T.
      cbv zeta in T. replace (0 <? k) with true in T
        by (symmetry; apply Z.ltb_lt; lia). lia.
Qed.

Lemma rag_contexts_selected_witness :
  exists ctxs sim_scores w',
    rag_graph.rag fake mammals two_documents corpus_rows 1 loaded
    = (Returns (lit "mammals", ctxs, rag_graph.compute_confidence sim_scores), w')
    /\ incl ctxs two_documents
    /\ List.length ctxs = Z.to_nat 1
    /\ List.length sim_scores = Z.to_nat 1.
Proof.
  apply (proj2 (rag_contexts_selected fake mammals two_documents corpus_rows 1
                  loaded) [1%float; 0%float] [1%float; 0%float]).
  - right. reflexivity.
  - reflexivity.
  - vm_compute. reflexivity.
  - reflexivity.
  - cbn. lia.
  - right. reflexivity.
  - intros context. reflexivity.
Defined.

(** C2, as the specification has it, fails: with [k = 0] on two documents
    the orchestrator returns both as contexts, a confidence of 0.5, and has
    called the chat model. *)
Lemma rag_k0_counterexample :
  fst (rag_graph.rag fake mammals two_documents corpus_rows 0 loaded)
  = Returns (lit "mammals", two_documents, 0.5%float)
  /\ (0.5 =? 0)%float = false
  /\ existsb is_generation
       (new_calls loaded
          (snd (rag_graph.rag fake mammals two_documents corpus_rows 0 loaded)))
     = true.
Proof. repeat split; vm_compute; reflexivity. Qed.

(** C2, as the code has it. With [k = 0], whenever the orchestrator returns
    it has invoked the Answer Generator exactly once, after the one embedding
    call and on the joined contexts, and the confidence is 0.0 if the
    contexts are empty; and it does return when the providers answer. *)
Theorem rag_k0_invokes_generator (P : providers) (question : str)
        (documents : list str) (doc_embeddings : option (list vec)) (w : world) :
  (forall answer ctxs conf w',
      rag_graph.rag P question documents doc_embeddings 0 w
      = (Returns (answer, ctxs, conf), w') ->
      new_calls w w' =
      [EmbedQuery question;
       ChatInvoke SYSTEM (generator.prompt question (join [10%N] ctxs))]
      /\ (ctxs = [] -> conf = 0%float))
  /\ (forall v scores ans,
         model_ready P w ->
         embed_query P (calls w) question = Returns v ->
         cosine_similarity P v doc_embeddings = Returns scores ->
         (List.length scores <= List.length documents)%nat ->
         llm_ready P w ->
         (forall context,
             chat_invoke P (calls w ++ [EmbedQuery question]) SYSTEM
                         (generator.prompt question context) = Returns ans) ->
         exists ctxs conf w',
           rag_graph.rag P question documents doc_embeddings 0 w
           = (Returns (ans, ctxs, conf), w')
           /\ existsb is_generation (new_calls w w') = true).
Proof.
  split.
  - intros answer ctxs conf w' H.
    destruct (rag_inv _ _ _ _ _ _ _ _ _ _ H) as (v & ts & R & E & S & -> & L & ->).
    split.
    + apply new_calls_app. cbn [after_generation after_embedding calls].
      rewrite <- app_assoc. reflexivity.
    + intros ->. destruct (select_inv _ _ _ _ _ _ _ S) as (scores & _ & _ & Hd & ->).
      symmetry in Hd. apply map_eq_nil in Hd. rewrite Hd. reflexivity.
  - intros v scores ans R E C Ln L G.
    pose proof (select_returns P v documents doc_embeddings 0 scores C Ln) as S.
    eexists _, _, _. split.
    + rewrite (rag_run _ _ _ _ _ _ _ _ _ R E S L). rewrite G. reflexivity.
    + erewrite new_calls_app.
      2:{ cbn [after_generation after_embedding calls].
          rewrite <- app_assoc. reflexivity. }
      reflexivity.
Qed.

Lemma rag_k0_invokes_generator_witness :
  exists ctxs conf w',
    rag_graph.rag fake mammals two_documents corpus_rows 0 loaded
    = (Returns (lit "mammals", ctxs, conf), w')
    /\ existsb is_generation (new_calls loaded w') = true.
Proof.
  apply (proj2 (rag_k0_invokes_generator fake mammals two_documents corpus_rows
                  loaded) [1%float; 0%float] [1%float; 0%float]).
  - right. reflexivity.
  - reflexivity.
  - vm_compute. reflexivity.
  - cbn. lia.
  - right. reflexivity.
  - intros context. reflexivity.
Defined.

(** *** Strings *)

Lemma str_eqb_eq (a b : str) : str_eqb a b = true <-> a = b.
Proof.
  revert b. induction a as [|x a IH]; intros [|y b]; cbn [str_eqb];
    try (split; [discriminate | discriminate]); [tauto|].
  rewrite andb_true_iff, N.eqb_eq, IH. split.
  - intros [-> ->]. reflexivity.
  - intros E. injection E as -> ->. auto.
Qed.

Lemma str_eqb_nil_false (a : str) : a <> [] -> str_eqb a [] = false.
Proof. destruct a; [congruence | reflexivity]. Qed.

Lemma lstrip_blank (s : str) :
  Forall (fun c => isspace c = true) s -> lstrip s = [].
Proof.
  induction 1 as [|c s Hc _ IH]; cbn [lstrip]; [reflexivity|].
  rewrite Hc. exact IH.
Qed.

Lemma strip_blank (s : str) :
  Forall (fun c => isspace c = true) s -> strip s = [].
Proof. intros H. unfold strip. rewrite (lstrip_blank s H). reflexivity. Qed.

Lemma endswith_suffix (s suffix : str) :
  endswith s suffix = true ->
  skipn (List.length s - List.length suffix) s = suffix.
Proof.
  unfold endswith. rewrite andb_true_iff. intros [_ H].
  apply str_eqb_eq. exact H.
Qed.

Lemma pdf_is_not_txt (path : str) :
  endswith path (lit ".pdf") = true -> endswith path (lit ".txt") = false.
Proof.
  intros Hp. destruct (endswith path (lit ".txt")) eqn:Ht; [|reflexivity].
  apply endswith_suffix in Hp, Ht.
  change (List.length (lit ".pdf")) with 4%nat in Hp.
  change (List.length (lit ".txt")) with 4%nat in Ht.
  rewrite Hp in Ht. discriminate Ht.
Qed.

(** *** The request boundary *)

(** C6. A question that is empty or all whitespace is answered by a refusal
    (no contexts, confidence 0.0) and leaves the world as it was: no call
    to the embedding provider or the chat model, no client built. *)
Theorem ask_blank_question_rejected (P : providers)
        (payload : main.QuestionRequest) (w : world) :
  Forall (fun c => isspace c = true) (main.req_question payload) ->
  exists message,
    main.ask_question P payload w = (Returns (refusal payload message), w)
    /\ (message = INVALID_QUESTION \/ message = NOT_LOADED).
Proof.
  intros B. unfold main.ask_question.
  destruct (DOCUMENTS w) as [[|d ds]|].
  - exists NOT_LOADED. split; [reflexivity | right; reflexivity].
  - rewrite (strip_blank _ B). cbn [str_eqb]. rewrite orb_true_r.
    exists INVALID_QUESTION. split; [reflexivity | left; reflexivity].
  - exists NOT_LOADED. split; [reflexivity | right; reflexivity].
Qed.

Lemma ask_blank_question_rejected_witness :
  exists message,
    main.ask_question fake (main.mkRequest (lit "  ") 2) loaded
    = (Returns (refusal (main.mkRequest (lit "  ") 2) message), loaded)
    /\ (message = INVALID_QUESTION \/ message = NOT_LOADED).
Proof.
  apply (ask_blank_question_rejected fake (main.mkRequest (lit "  ") 2) loaded).
  repeat constructor.
Defined.

Lemma ask_question_guarded (P : providers) (payload : main.QuestionRequest)
      (w : world) (d : str) (ds : list str) :
  DOCUMENTS w = Some (d :: ds) ->
  strip (main.req_question payload) <> [] ->
  main.ask_question P payload w =
  match rag_graph.rag P (main.req_question payload) (d :: ds)
                      (DOC_EMBEDDINGS w) (main.req_k payload) w with
  | (Returns (answer, contexts, confidence), w') =>
      (Returns (main.mkResponse (main.req_question payload) (main.req_k payload)
                                answer contexts confidence), w')
  | (Raises e, w') => (Returns (refusal payload (error_message e)), w')
  end.
Proof.
  intros D Q. unfold main.ask_question. rewrite D.
  assert (Q' : main.req_question payload <> [])
    by (intros E; apply Q; rewrite E; reflexivity).
  rewrite (str_eqb_nil_false _ Q), (str_eqb_nil_false _ Q'). cbn [orb].
  unfold try_except, bind, ret.
  destruct (rag_graph.rag P _ _ _ _ w) as [[[[a c] f]|e] w']; reflexivity.
Qed.

Lemma ask_question_returns (P : providers) (payload : main.QuestionRequest)
      (w : world) :
  exists response w', main.ask_question P payload w = (Returns response, w').
Proof.
  unfold main.ask_question.
  destruct (DOCUMENTS w) as [[|d ds]|]; try (eexists _, _; reflexivity).
  destruct (_ || _); [eexists _, _; reflexivity|].
  unfold try_except, bind, ret.
  destruct (rag_graph.rag P _ _ _ _ w) as [[[[a c] f]|e] w'];
    eexists _, _; reflexivity.
Qed.

Lemma rag_embedding_failure (P : providers) (question : str)
      (documents : list str) (doc_embeddings : option (list vec)) (k : Z)
      (w : world) (e : exn) :
  model_ready P w ->
  embed_query P (calls w) question = Raises e ->
  rag_graph.rag P question documents doc_embeddings k w
  = (Raises e, after_embedding w (EmbedQuery question)).
Proof.
  intros R E. unfold rag_graph.rag, retriever.retrieve, bind.
  rewrite (get_embeddings_model_ready P w R).
  unfold external. cbn [calls]. rewrite E. reflexivity.
Qed.

Lemma rag_retrieval_failure (P : providers) (question : str)
      (documents : list str) (doc_embeddings : option (list vec)) (k : Z)
      (w : world) (v : vec) (e : exn) :
  model_ready P w ->
  embed_query P (calls w) question = Returns v ->
  select P v documents doc_embeddings k = Raises e ->
  rag_graph.rag P question documents doc_embeddings k w
  = (Raises e, after_embedding w (EmbedQuery question)).
Proof.
  intros R E S. unfold rag_graph.rag, bind.
  rewrite (retrieve_run _ _ _ _ _ _ v R E), S. reflexivity.
Qed.

Lemma rag_generation_failure (P : providers) (question : str)
      (documents : list str) (doc_embeddings : option (list vec)) (k : Z)
      (w : world) (v : vec) (top_docs : list str) (top_scores : list float)
      (e : exn) :
  model_ready P w ->
  embed_query P (calls w) question = Returns v ->
  select P v documents doc_embeddings k = Returns (top_docs, top_scores) ->
  llm_ready P w ->
  chat_invoke P (calls w ++ [EmbedQuery question]) SYSTEM
              (generator.prompt question (join [10%N] top_docs)) = Raises e ->
  fst (rag_graph.rag P question documents doc_embeddings k w) = Raises e.
Proof.
  intros R E S L G. rewrite (rag_run _ _ _ _ _ _ _ _ _ R E S L).
  cbn [fst]. rewrite G. reflexivity.
Qed.

(** C7. [/ask] always returns a response, never an exception.  Once the
    documents are loaded and the question is not blank, an exception raised
    inside the pipeline, be it by the embedding call, by the similarity and
    selection step, or by the chat model, becomes a response whose answer is
    "Error processing question: " followed by the message of the exception,
    with no contexts and confidence 0.0. *)
Theorem ask_question_catches_failures (P : providers)
        (payload : main.QuestionRequest) (w : world) :
  (exists response w', main.ask_question P payload w = (Returns response, w'))
  /\ (forall d ds,
         DOCUMENTS w = Some (d :: ds) ->
         strip (main.req_question payload) <> [] ->
         let question := main.req_question payload in
         let run := rag_graph.rag P question (d :: ds) (DOC_EMBEDDINGS w)
                                  (main.req_k payload) w in
         (forall e w',
             run = (Raises e, w') ->
             main.ask_question P payload w
             = (Returns (refusal payload (error_message e)), w'))
         /\ (forall e,
                model_ready P w ->
                embed_query P (calls w) question = Raises e ->
                fst (main.ask_question P payload w)
                = Returns (refusal payload (error_message e)))
         /\ (forall v e,
                model_ready P w ->
                embed_query P (calls w) question = Returns v ->
                select P v (d :: ds) (DOC_EMBEDDINGS w) (main.req_k payload)
                = Raises e ->
                fst (main.ask_question P payload w)
                = Returns (refusal payload (error_message e)))
         /\ (forall v top_docs top_scores e,
                model_ready P w ->
                embed_query P (calls w) question = Returns v ->
                select P v (d :: ds) (DOC_EMBEDDINGS w) (main.req_k payload)
                = Returns (top_docs, top_scores) ->
                llm_ready P w ->
                chat_invoke P (calls w ++ [EmbedQuery question]) SYSTEM
                            (generator.prompt question (join [10%N] top_docs))
                = Raises e ->
                fst (main.ask_question P payload w)
                = Returns (refusal payload (error_message e)))).
Proof.
  split; [apply ask_question_returns|].
  intros d ds D Q question run.
  pose proof (ask_question_guarded P payload w d ds D Q) as A.
  fold question in A. fold run in A.
  split; [|split; [|split]].
  - intros e w' H. rewrite A, H. reflexivity.
  - intros e R E. rewrite A. unfold run.
    rewrite (rag_embedding_failure _ _ _ _ _ _ _ R E). reflexivity.
  - intros v e R E S. rewrite A. unfold run.
    rewrite (rag_retrieval_failure _ _ _ _ _ _ _ _ R E S). reflexivity.
  - intros v td ts e R E S L G. rewrite A.
    pose proof (rag_generation_failure _ _ _ _ _ _ _ _ _ _ R E S L G) as F.
    fold run in F. destruct run as [[[[a c] f]|e'] w']; cbn [fst] in F.
    + discriminate F.
    + injection F as ->. reflexivity.
Qed.

Lemma ask_question_catches_failures_witness :
  fst (main.ask_question unreachable (main.mkRequest mammals 2) loaded)
  = Returns (refusal (main.mkRequest mammals 2)
                     (error_message (ExternalError (lit "Connection error.")))).
Proof.
  refine (proj1 (proj2 (proj2 (ask_question_catches_failures unreachable
            (main.mkRequest mammals 2) loaded)
            (lit "cats are mammals") [lit "the stock market fell today"]
            eq_refl _)) _ _ _).
  - vm_compute. discriminate.
  - right. reflexivity.
  - reflexivity.
Defined.

(** *** Loading documents *)

(** C9. [load_documents] raises [ValueError] on every path that does not end
    in ".txt", without opening the file, and so does [build_index], before
    any embedding call; a path ending in ".pdf" is such a path, although
    [load_pdf] in the same module would hand it to the PDF loader. *)
Theorem load_documents_rejects_non_txt :
  (forall (P : providers) (path : str) (w : world),
      endswith path (lit ".txt") = false ->
      ingest.load_documents P path w
      = (Raises (ValueError (lit "Unsupported file format: " ++ path)), w)
      /\ retriever.build_index P path w
         = (Raises (ValueError (lit "Unsupported file format: " ++ path)), w))
  /\ (forall path : str,
         endswith path (lit ".pdf") = true -> endswith path (lit ".txt") = false)
  /\ (forall (P : providers) (path : str) (w : world),
         fst (ingest.load_pdf P path w) = PyPDFLoader_load P path).
Proof.
  split; [|split].
  - intros P path w H.
    unfold retriever.build_index, bind, ingest.load_documents.
    rewrite H. split; reflexivity.
  - exact pdf_is_not_txt.
  - reflexivity.
Qed.

Lemma load_documents_rejects_non_txt_witness :
  ingest.load_documents fake (lit "data/doc.pdf") loaded
  = (Raises (ValueError (lit "Unsupported file format: " ++ lit "data/doc.pdf")),
     loaded)
  /\ retriever.build_index fake (lit "data/doc.pdf") loaded
     = (Raises (ValueError (lit "Unsupported file format: " ++ lit "data/doc.pdf")),
        loaded).
Proof.
  apply (proj1 load_documents_rejects_non_txt fake (lit "data/doc.pdf") loaded).
  apply (proj1 (proj2 load_documents_rejects_non_txt)). reflexivity.
Defined.

(** ** Part III: the rest of the code *)

(** *** [str.strip] *)

Lemma lstrip_hd (s : str) (c : N) :
  hd_error (lstrip s) = Some c -> isspace c = false.
Proof.
  induction s as [|x s IH]; cbn [lstrip]; [discriminate|].
  destruct (isspace x) eqn:E; [exact IH|].
  cbn. intros H. injection H as <-. exact E.
Qed.

Lemma lstrip_split (s : str) :
  exists p, s = p ++ lstrip s /\ Forall (fun c => isspace c = true) p.
Proof.
  induction s as [|x s (p & Hs & Hp)]; cbn [lstrip].
  - exists []. split; [reflexivity | constructor].
  - destruct (isspace x) eqn:E.
    + exists (x :: p). split; [cbn; congruence | constructor; assumption].
    + exists []. split; [reflexivity | constructor].
Qed.

Lemma lstrip_fixed (s : str) :
  (forall c, hd_error s = Some c -> isspace c = false) -> lstrip s = s.
Proof.
  destruct s as [|x s]; [reflexivity|]. cbn. intros H.
  rewrite (H x eq_refl). reflexivity.
Qed.

Lemma hd_error_app {A : Type} (l1 l2 : list A) (a : A) :
  hd_error l1 = Some a -> hd_error (l1 ++ l2) = Some a.
Proof. destruct l1; [discriminate | exact (fun H => H)]. Qed.

Lemma strip_trimmed (s : str) : trimmed (strip s).
Proof.
  unfold trimmed, strip, rstrip. split; intros c H.
  - destruct (lstrip_split (rev (lstrip s))) as (p & E & _).
    apply (f_equal (@rev N)) in E. rewrite rev_involutive, rev_app_distr in E.
    apply (lstrip_hd s). rewrite E. apply hd_error_app. exact H.
  - rewrite rev_involutive in H. exact (lstrip_hd _ _ H).
Qed.

Lemma strip_fixed (s : str) : trimmed s -> strip s = s.
Proof.
  intros [H1 H2]. unfold strip, rstrip.
  rewrite (lstrip_fixed s H1), (lstrip_fixed (rev s) H2).
  apply rev_involutive.
Qed.

Lemma lstrip_keeps (s : str) :
  Exists (fun c => isspace c = false) s ->
  Exists (fun c => isspace c = false) (lstrip s).
Proof.
  intros H. destruct (lstrip_split s) as (p & E & F).
  rewrite E in H. apply Exists_app in H. destruct H as [H | H]; [|exact H].
  exfalso. apply Exists_exists in H. destruct H as (c & Hc & Hn).
  rewrite Forall_forall in F. rewrite (F c Hc) in Hn. discriminate.
Qed.

Lemma strip_keeps (s : str) :
  Exists (fun c => isspace c = false) s ->
  Exists (fun c => isspace c = false) (strip s).
Proof.
  intros H. unfold strip, rstrip.
  apply Exists_rev, lstrip_keeps, Exists_rev, lstrip_keeps. exact H.
Qed.

Lemma strip_nonblank (s : str) :
  Exists (fun c => isspace c = false) s -> strip s <> [].
Proof.
  intros H E. apply strip_keeps in H. rewrite E in H. inversion H.
Qed.

Lemma blank_or_not (s : str) :
  Forall (fun c => isspace c = true) s \/ Exists (fun c => isspace c = false) s.
Proof.
  induction s as [|c s [IH | IH]].
  - left. constructor.
  - destruct (isspace c) eqn:E.
    + left. constructor; assumption.
    + right. constructor. exact E.
  - right. apply Exists_cons_tl. exact IH.
Qed.

Lemma strip_nonblank_iff (s : str) :
  str_eqb (strip s) [] = false <-> Exists (fun c => isspace c = false) s.
Proof.
  split.
  - intros H. destruct (blank_or_not s) as [B | B]; [|exact B].
    rewrite (strip_blank s B) in H. discriminate.
  - intros H. apply str_eqb_nil_false, strip_nonblank, H.
Qed.

(** *** [load_txt] *)

(** X1. What [load_txt] returns are the lines of the file that hold a character
    other than whitespace, each without its surrounding whitespace: no
    returned line is empty or starts or ends with whitespace, stripping it
    again changes nothing, there are no more of them than lines in the file,
    and the file was opened once. *)
Theorem load_txt_lines_trimmed (P : providers) (path : str) (w w' : world)
        (lines : list str) :
  ingest.load_txt P path w = (Returns lines, w') ->
  Forall (fun line => line <> [] /\ trimmed line /\ strip line = line) lines
  /\ (exists f,
        open_lines P path = Returns f
        /\ (forall line,
               In line lines <->
               exists l, In l f /\ Exists (fun c => isspace c = false) l
                         /\ line = strip l)
        /\ (List.length lines <= List.length f)%nat)
  /\ extends_by w w' [OpenFile path].
Proof.
  unfold ingest.load_txt, bind, external, ret. cbn.
  destruct (open_lines P path) as [f|e]; [|discriminate].
  intros H. injection H as <- <-. split; [|split].
  - apply Forall_forall. intros line Hl. apply in_map_iff in Hl.
    destruct Hl as (l & <- & Hf). apply filter_In in Hf. destruct Hf as [_ Hn].
    split; [|split].
    + intros E. rewrite E in Hn. discriminate.
    + apply strip_trimmed.
    + apply strip_fixed, strip_trimmed.
  - exists f. split; [reflexivity|]. split.
    + intros line. rewrite in_map_iff. split.
      * intros (l & <- & Hf). apply filter_In in Hf. destruct Hf as [Hl Hn].
        exists l. split; [exact Hl|]. split; [|reflexivity].
        apply strip_nonblank_iff. apply negb_true_iff. exact Hn.
      * intros (l & Hl & Hn & ->). exists l. split; [reflexivity|].
        apply filter_In. split; [exact Hl|].
        apply negb_true_iff. apply strip_nonblank_iff. exact Hn.
    + rewrite length_map. apply filter_length_le.
  - repeat split.
Qed.

Lemma load_txt_lines_trimmed_witness :
  Forall (fun line => line <> [] /\ trimmed line /\ strip line = line)
         [lit "cats are mammals"].
Proof.
  apply (load_txt_lines_trimmed fake (lit "data/input.txt") fresh
           (mkWorld false false None None [OpenFile (lit "data/input.txt")])).
  vm_compute. reflexivity.
Defined.

(** *** The client singletons *)

Lemma model_ready_or_not (P : providers) (w : world) :
  model_ready P w
  \/ (embeddings_model w = false /\ exists e, OpenAIEmbeddings P = Raises e).
Proof.
  unfold model_ready. destruct (embeddings_model w); [auto|].
  destruct (OpenAIEmbeddings P) as [[]|e]; [auto|]. right. eauto.
Qed.

Lemma llm_ready_or_not (P : providers) (w : world) :
  llm_ready P w \/ (llm w = false /\ exists e, ChatOpenAI P = Raises e).
Proof.
  unfold llm_ready. destruct (llm w); [auto|].
  destruct (ChatOpenAI P) as [[]|e]; [auto|]. right. eauto.
Qed.

Lemma get_embeddings_model_unavailable (P : providers) (w : world) (e : exn) :
  embeddings_model w = false -> OpenAIEmbeddings P = Raises e ->
  retriever.get_embeddings_model P w = (Raises e, w).
Proof.
  intros H1 H2. unfold retriever.get_embeddings_model. rewrite H1, H2.
  reflexivity.
Qed.

Lemma get_llm_unavailable (P : providers) (w : world) (e : exn) :
  llm w = false -> ChatOpenAI P = Raises e ->
  generator.get_llm P w = (Raises e, w).
Proof.
  intros H1 H2. unfold generator.get_llm. rewrite H1, H2. reflexivity.
Qed.

(** X2. The embedding client is built at most once: after a call that returned,
    every later call returns at once and leaves the world as it is, whatever
    the constructor would do now; a call that raised has built nothing and
    changed nothing, so that the next call tries again.  No call leaves the
    process either way. *)
Theorem embeddings_model_built_once (P : providers) (w w' : world) :
  (retriever.get_embeddings_model P w = (Returns tt, w') ->
   embeddings_model w' = true
   /\ extends_by w w' []
   /\ llm w' = llm w
   /\ forall P', retriever.get_embeddings_model P' w' = (Returns tt, w'))
  /\ (forall e,
         retriever.get_embeddings_model P w = (Raises e, w') ->
         w' = w /\ embeddings_model w = false
         /\ OpenAIEmbeddings P = Raises e).
Proof.
  split.
  - intros H.
    assert (R : model_ready P w).
    { destruct (model_ready_or_not P w) as [R | (F & e & E)]; [exact R|].
      rewrite (get_embeddings_model_unavailable P w e F E) in H. discriminate. }
    rewrite (get_embeddings_model_ready P w R) in H. injection H as <-.
    cbn. unfold extends_by. cbn. rewrite app_nil_r. repeat split.
  - intros e H.
    destruct (model_ready_or_not P w) as [R | (F & e' & E)].
    + rewrite (get_embeddings_model_ready P w R) in H. discriminate.
    + rewrite (get_embeddings_model_unavailable P w e' F E) in H.
      injection H as <- <-. auto.
Qed.

Lemma embeddings_model_built_once_witness :
  embeddings_model (mkWorld true false None None []) = true
  /\ extends_by fresh (mkWorld true false None None []) []
  /\ llm (mkWorld true false None None []) = llm fresh
  /\ forall P',
      retriever.get_embeddings_model P' (mkWorld true false None None [])
      = (Returns tt, mkWorld true false None None []).
Proof.
  apply (proj1 (embeddings_model_built_once fake fresh
                  (mkWorld true false None None []))).
  reflexivity.
Defined.

(** X3. The chat client is built at most once, in the same way. *)
Theorem llm_built_once (P : providers) (w w' : world) :
  (generator.get_llm P w = (Returns tt, w') ->
   llm w' = true
   /\ extends_by w w' []
   /\ embeddings_model w' = embeddings_model w
   /\ forall P', generator.get_llm P' w' = (Returns tt, w'))
  /\ (forall e,
         generator.get_llm P w = (Raises e, w') ->
         w' = w /\ llm w = false /\ ChatOpenAI P = Raises e).
Proof.
  split.
  - intros H.
    assert (R : llm_ready P w).
    { destruct (llm_ready_or_not P w) as [R | (F & e & E)]; [exact R|].
      rewrite (get_llm_unavailable P w e F E) in H. discriminate. }
    rewrite (get_llm_ready P w R) in H. injection H as <-.
    cbn. unfold extends_by. cbn. rewrite app_nil_r. repeat split.
  - intros e H.
    destruct (llm_ready_or_not P w) as [R | (F & e' & E)].
    + rewrite (get_llm_ready P w R) in H. discriminate.
    + rewrite (get_llm_unavailable P w e' F E) in H.
      injection H as <- <-. auto.
Qed.

Lemma llm_built_once_witness :
  llm (mkWorld false true None None []) = true
  /\ extends_by fresh (mkWorld false true None None []) []
  /\ embeddings_model (mkWorld false true None None []) = embeddings_model fresh
  /\ forall P',
      generator.get_llm P' (mkWorld false true None None [])
      = (Returns tt, mkWorld false true None None []).
Proof.
  apply (proj1 (llm_built_once fake fresh (mkWorld false true None None []))).
  reflexivity.
Defined.

(** *** [generate_answer] *)

Lemma generate_answer_unavailable (P : providers) (question context : str)
      (w : world) (e : exn) :
  llm w = false -> ChatOpenAI P = Raises e ->
  generator.generate_answer P question context w = (Raises e, w).
Proof.
  intros H1 H2. unfold generator.generate_answer, bind.
  rewrite (get_llm_unavailable P w e H1 H2). reflexivity.
Qed.

(** X4. [generate_answer] calls the chat model exactly once, with the fixed
    system message and the prompt, and returns its answer or raises its
    exception unchanged, whenever the client exists or can be built; when
    the client cannot be built it raises the constructor's exception,
    calls nothing and leaves the world as it was.  The corpus is never
    touched. *)
Theorem generate_answer_calls (P : providers) (question context : str)
        (w : world) :
  let human := generator.prompt question context in
  let result := generator.generate_answer P question context w in
  (llm_ready P w
   /\ fst result = chat_invoke P (calls w) SYSTEM human
   /\ extends_by w (snd result) [ChatInvoke SYSTEM human]
   /\ llm (snd result) = true)
  \/ (exists e,
        llm w = false /\ ChatOpenAI P = Raises e
        /\ result = (Raises e, w)).
Proof.
  intros human result.
  destruct (llm_ready_or_not P w) as [R | (F & e & E)].
  - left. unfold result. rewrite (generate_answer_run P _ _ w R).
    fold human. cbn [fst snd]. unfold extends_by, after_generation.
    cbn [DOCUMENTS DOC_EMBEDDINGS calls llm]. repeat split. exact R.
  - right. exists e. unfold result.
    rewrite (generate_answer_unavailable P _ _ w e F E). auto.
Qed.

(** X5. The prompt does not separate the context from the question: a context
    that ends in a "Question:" block and a question that begins with one
    give the same prompt, and so the same call to the chat model. *)
Theorem prompt_does_not_separate (context q1 q2 : str) :
  generator.prompt q2 (context ++ QUESTION_MARK ++ q1)
  = generator.prompt (q1 ++ QUESTION_MARK ++ q2) context
  /\ forall P w,
      fst (generator.generate_answer P q2 (context ++ QUESTION_MARK ++ q1) w)
      = fst (generator.generate_answer P (q1 ++ QUESTION_MARK ++ q2) context w).
Proof.
  assert (E : generator.prompt q2 (context ++ QUESTION_MARK ++ q1)
              = generator.prompt (q1 ++ QUESTION_MARK ++ q2) context).
  { unfold generator.prompt, QUESTION_MARK.
    repeat rewrite <- app_assoc. reflexivity. }
  split; [exact E|]. intros P w.
  destruct (llm_ready_or_not P w) as [R | (F & e & H)].
  - rewrite !generate_answer_run by exact R. cbn [fst]. rewrite E. reflexivity.
  - rewrite !(generate_answer_unavailable P _ _ w e F H). reflexivity.
Qed.

(** *** Retrieval: the best, each once *)

Lemma StronglySorted_app_order {A : Type} (R : A -> A -> Prop)
      (l1 l2 : list A) (x y : A) :
  StronglySorted R (l1 ++ l2) -> In x l1 -> In y l2 -> R x y.
Proof.
  induction l1 as [|a l1 IH]; cbn [app]; intros S Hx Hy; [destruct Hx|].
  inversion S as [|? ? S' F]; subst. destruct Hx as [<- | Hx].
  - rewrite Forall_forall in F. apply F. apply in_or_app. right. exact Hy.
  - apply IH; assumption.
Qed.

(** No index is selected twice, for any [k]. *)
Lemma top_idx_NoDup (P : providers) (scores : list float) (k : Z) :
  NoDup (retriever.top_idx P scores k).
Proof.
  unfold retriever.top_idx. apply NoDup_rev.
  destruct (slice_from_eq (- k) (argsort P scores)) as [n ->].
  assert (N : NoDup (argsort P scores)).
  { apply (Permutation_NoDup (Permutation_sym (argsort_perm P scores))).
    apply seq_NoDup. }
  rewrite <- (firstn_skipn n (argsort P scores)) in N.
  apply NoDup_app_remove_l in N. exact N.
Qed.

(** X6. What [retrieve] selects is the best of the corpus, for every [k] and
    whatever order the sort leaves equal scores in: every selected index has
    a score at least as great (in numpy's order) as every index of the
    corpus that is not selected, and no index is selected twice. *)
Theorem top_idx_selects_the_best (P : providers) (scores : list float) (k : Z) :
  NoDup (retriever.top_idx P scores k)
  /\ forall i j,
      In i (retriever.top_idx P scores k) ->
      (j < List.length scores)%nat ->
      ~ In j (retriever.top_idx P scores k) ->
      scored_at_least scores i j.
Proof.
  split; [apply top_idx_NoDup|].
  intros i j Hi Hj Hn. unfold retriever.top_idx in Hi, Hn.
  destruct (slice_from_eq (- k) (argsort P scores)) as [n E].
  rewrite E in Hi, Hn. apply in_rev in Hi.
  assert (Hq : In j (firstn n (argsort P scores))).
  { assert (Hall : In j (argsort P scores)).
    { apply (Permutation_in _ (Permutation_sym (argsort_perm P scores))).
      apply in_seq. lia. }
    rewrite <- (firstn_skipn n (argsort P scores)) in Hall.
    apply in_app_or in Hall. destruct Hall as [H | H]; [exact H|].
    exfalso. apply Hn. apply in_rev. rewrite rev_involutive. exact H. }
  pose proof (argsort_sorted P scores) as S.
  rewrite <- (firstn_skipn n (argsort P scores)) in S.
  exact (StronglySorted_app_order _ _ _ j i S Hq Hi).
Qed.

Lemma top_idx_selects_the_best_witness :
  scored_at_least [0.25%float; 0.75%float; 0.5%float] 1 0.
Proof.
  apply (proj2 (top_idx_selects_the_best fake
                  [0.25%float; 0.75%float; 0.5%float] 2)).
  - vm_compute. auto.
  - cbn. lia.
  - vm_compute. intros [H | [H | []]]; discriminate H.
Defined.

Lemma top_idx_skipn (P : providers) (scores : list float) (k : Z) :
  retriever.top_idx P scores k
  = rev (skipn (Z.to_nat (if - k <? 0
                          then Z.max (- k + Z.of_nat (List.length scores)) 0
                          else Z.min (- k) (Z.of_nat (List.length scores))))
               (argsort P scores)).
Proof.
  unfold retriever.top_idx, slice_from. rewrite length_argsort. reflexivity.
Qed.

(** X24. What [retrieve] selects depends on the order the sort leaves equal
    scores in only where scores are equal: for any two sorts the scores at
    the selected indices are the same numbers in the same order, and when no
    two scores of the row are equal the selected indices are the same too. *)
Theorem top_idx_independent_of_ties (P1 P2 : providers) (scores : list float)
        (k : Z) :
  map (fun i => npy_key (score_at scores i)) (retriever.top_idx P1 scores k)
  = map (fun i => npy_key (score_at scores i)) (retriever.top_idx P2 scores k)
  /\ (NoDup (map npy_key scores) ->
      retriever.top_idx P1 scores k = retriever.top_idx P2 scores k).
Proof.
  rewrite !top_idx_skipn. set (n := Z.to_nat _). split.
  - rewrite !map_rev, <- !skipn_map. f_equal. f_equal.
    apply (sorted_perm_unique Z.le).
    + intros x y _ _. lia.
    + apply (StronglySorted_map_in
               (fun i j => npy_key (score_at scores i)
                           <= npy_key (score_at scores j)));
        [intros x y _ _ L; exact L | apply argsort_sorted].
    + apply (StronglySorted_map_in
               (fun i j => npy_key (score_at scores i)
                           <= npy_key (score_at scores j)));
        [intros x y _ _ L; exact L | apply argsort_sorted].
    + apply Permutation_map.
      apply (Permutation_trans (argsort_perm P1 scores)).
      apply Permutation_sym. apply argsort_perm.
  - intros N. f_equal. f_equal.
    apply (sorted_perm_unique
             (fun i j => npy_key (score_at scores i)
                         <= npy_key (score_at scores j))).
    + intros i j Hi Hj L1 L2.
      apply argsort_in_range in Hi, Hj.
      rewrite (NoDup_nth (map npy_key scores) (npy_key nan)) in N.
      apply N; rewrite ?length_map; try assumption.
      rewrite !(map_nth npy_key). unfold score_at in L1, L2. lia.
    + apply argsort_sorted.
    + apply argsort_sorted.
    + apply (Permutation_trans (argsort_perm P1 scores)).
      apply Permutation_sym. apply argsort_perm.
Qed.

Lemma nth_seq_all {A : Type} (l : list A) (d : A) :
  map (fun i => nth i l d) (seq 0 (List.length l)) = l.
Proof.
  induction l as [|a l IH]; [reflexivity|].
  cbn [List.length seq map nth]. f_equal.
  rewrite <- seq_shift, map_map. exact IH.
Qed.

Lemma top_idx_everything (P : providers) (scores : list float) (k : Z) :
  k = 0 \/ Z.of_nat (List.length scores) <= k ->
  Permutation (retriever.top_idx P scores k) (seq 0 (List.length scores)).
Proof.
  intros Hk. unfold retriever.top_idx, slice_from.
  rewrite length_argsort.
  assert (E : Z.to_nat (if - k <? 0
                        then Z.max (- k + Z.of_nat (List.length scores)) 0
                        else Z.min (- k) (Z.of_nat (List.length scores))) = 0%nat).
  { destruct (- k <? 0) eqn:L.
    - apply Z.ltb_lt in L. lia.
    - apply Z.ltb_ge in L. lia. }
  rewrite E, skipn_0, <- Permutation_rev. apply argsort_perm.
Qed.

(** X7. The length of what [retrieve] returns, for every [k]: [min(k, n)] on a
    corpus of [n] scores when [k >= 1], all [n] when [k = 0], and [n - |k|]
    (or none, once [|k| >= n]) when [k < 0], the slice [[-k:]] then dropping
    the [|k|] lowest scores. *)
Theorem retrieve_length_law (P : providers) (query : str)
        (documents : list str) (doc_embeddings : option (list vec)) (k : Z)
        (w w' : world) (top_docs : list str) (top_scores : list float) :
  retriever.retrieve P query documents doc_embeddings k w
  = (Returns (top_docs, top_scores), w') ->
  exists v scores,
    embed_query P (calls w) query = Returns v
    /\ cosine_similarity P v doc_embeddings = Returns scores
    /\ List.length top_docs = List.length top_scores
    /\ Z.of_nat (List.length top_docs) =
       if 0 <? k then Z.min k (Z.of_nat (List.length scores))
       else Z.max (Z.of_nat (List.length scores) + k) 0.
Proof.
  intros H. destruct (retrieve_inv _ _ _ _ _ _ _ _ _ H) as (v & _ & E & S & _).
  destruct (select_inv _ _ _ _ _ _ _ S) as (scores & C & _ & -> & ->).
  exists v, scores. rewrite !length_map. repeat split; auto.
  apply length_top_idx.
Qed.

Lemma retrieve_length_law_witness :
  exists v scores,
    embed_query fake (calls loaded) mammals = Returns v
    /\ cosine_similarity fake v corpus_rows = Returns scores
    /\ List.length [nth 0 two_documents []] = List.length [1%float]
    /\ Z.of_nat (List.length [nth 0 two_documents []]) =
       if 0 <? -1 then Z.min (-1) (Z.of_nat (List.length scores))
       else Z.max (Z.of_nat (List.length scores) + -1) 0.
Proof.
  apply (retrieve_length_law fake mammals two_documents corpus_rows (-1) loaded
           (after_embedding loaded (EmbedQuery mammals))).
  vm_compute. reflexivity.
Defined.

(** X8. With [k = 0] or [k] at least the size of the corpus, and as many
    documents as scores, [retrieve] returns the whole corpus: the documents
    and the scores it returns are rearrangements of the documents and of the
    scores. *)
Theorem retrieve_whole_corpus (P : providers) (query : str)
        (documents : list str) (doc_embeddings : option (list vec)) (k : Z)
        (w : world) (v : vec) (scores : list float) :
  model_ready P w ->
  embed_query P (calls w) query = Returns v ->
  cosine_similarity P v doc_embeddings = Returns scores ->
  List.length scores = List.length documents ->
  k = 0 \/ Z.of_nat (List.length documents) <= k ->
  exists top_docs top_scores,
    fst (retriever.retrieve P query documents doc_embeddings k w)
    = Returns (top_docs, top_scores)
    /\ Permutation top_docs documents
    /\ Permutation top_scores scores.
Proof.
  intros R Q C L Hk. rewrite (retrieve_run _ _ _ _ _ _ v R Q). cbn [fst].
  eexists _, _. split; [apply (select_returns P v _ _ k scores C); lia|].
  assert (T : Permutation (retriever.top_idx P scores k)
                          (seq 0 (List.length scores)))
    by (apply top_idx_everything; lia).
  split.
  - apply Permutation_trans
      with (map (fun i => nth i documents []) (seq 0 (List.length scores))).
    + apply Permutation_map. exact T.
    + rewrite L, nth_seq_all. reflexivity.
  - apply Permutation_trans
      with (map (score_at scores) (seq 0 (List.length scores))).
    + apply Permutation_map. exact T.
    + unfold score_at. rewrite nth_seq_all. reflexivity.
Qed.

Lemma retrieve_whole_corpus_witness :
  exists top_docs top_scores,
    fst (retriever.retrieve fake mammals two_documents corpus_rows 7 loaded)
    = Returns (top_docs, top_scores)
    /\ Permutation top_docs two_documents
    /\ Permutation top_scores [1%float; 0%float].
Proof.
  apply (retrieve_whole_corpus fake mammals two_documents corpus_rows 7 loaded
           [1%float; 0%float] [1%float; 0%float]).
  - right. reflexivity.
  - reflexivity.
  - vm_compute. reflexivity.
  - reflexivity.
  - right. cbn. lia.
Defined.

(** *** Indexing the documents *)

Lemma comprehension_getitem_out_of_range {A : Type} (l : list A)
      (idx : list nat) :
  Exists (fun i => (List.length l <= i)%nat) idx ->
  comprehension (getitem l) idx
  = Raises (IndexError (lit "list index out of range")).
Proof.
  induction idx as [|i idx IH]; intros H; [inversion H|].
  cbn [comprehension]. unfold getitem at 1.
  destruct (nth_error l i) as [a|] eqn:E; [|reflexivity].
  inversion H as [? ? Hi | ? ? Hr]; subst.
  - apply nth_error_None in Hi. congruence.
  - rewrite (IH Hr). reflexivity.
Qed.

(** X9. With at least as many documents as scores [retrieve] never fails once
    the query is embedded and scored, whatever [k] is (zero, negative, or
    beyond the corpus); with fewer documents than scores, asking for the
    whole corpus raises [IndexError]. *)
Theorem retrieve_needs_a_document_per_score (P : providers) (query : str)
        (documents : list str) (doc_embeddings : option (list vec))
        (w : world) (v : vec) (scores : list float) :
  model_ready P w ->
  embed_query P (calls w) query = Returns v ->
  cosine_similarity P v doc_embeddings = Returns scores ->
  ((List.length scores <= List.length documents)%nat ->
   forall k, exists top_docs top_scores,
       fst (retriever.retrieve P query documents doc_embeddings k w)
       = Returns (top_docs, top_scores))
  /\ ((List.length documents < List.length scores)%nat ->
      forall k, k = 0 \/ Z.of_nat (List.length scores) <= k ->
      fst (retriever.retrieve P query documents doc_embeddings k w)
      = Raises (IndexError (lit "list index out of range"))).
Proof.
  intros R Q C. split.
  - intros L k. rewrite (retrieve_run _ _ _ _ _ _ v R Q). cbn [fst].
    eexists _, _. apply (select_returns P v _ _ k scores C L).
  - intros L k Hk. rewrite (retrieve_run _ _ _ _ _ _ v R Q). cbn [fst].
    unfold select. rewrite C.
    rewrite comprehension_getitem_out_of_range; [reflexivity|].
    apply Exists_exists. exists (List.length documents). split; [|lia].
    apply (Permutation_in _ (Permutation_sym (top_idx_everything P scores k Hk))).
    apply in_seq. lia.
Qed.

Lemma retrieve_needs_a_document_per_score_witness :
  fst (retriever.retrieve fake mammals [lit "cats are mammals"] corpus_rows 0
                          loaded)
  = Raises (IndexError (lit "list index out of range")).
Proof.
  refine (proj2 (retrieve_needs_a_document_per_score fake mammals
                   [lit "cats are mammals"] corpus_rows loaded
                   [1%float; 0%float] [1%float; 0%float] _ _ _)
                _ 0 _).
  - right. reflexivity.
  - reflexivity.
  - vm_compute. reflexivity.
  - cbn. lia.
  - left. reflexivity.
Defined.

(** *** The confidence has two decimals *)

(** X10. Whatever the scores, the confidence is one of the hundred and one
    floats nearest to [n / 100], [n] from 0 to 100. *)
Theorem compute_confidence_two_decimals (scores : list float) :
  exists n, 0 <= n <= 100 /\ rag_graph.compute_confidence scores = hundredth n.
Proof.
  destruct scores as [|x scores]; [exists 0; split; [lia | reflexivity]|].
  unfold rag_graph.compute_confidence.
  set (avg := (py_sum (x :: scores) / float_of_nat (List.length (x :: scores)))%float).
  cbv zeta.
  destruct (clamp_cases avg) as [(-> & _) | [(-> & _) | (-> & H0 & H1)]].
  - exists 0. split; [lia|]. rewrite py_round_zero. reflexivity.
  - exists 100. split; [lia|]. rewrite py_round_one. vm_compute. reflexivity.
  - rewrite ltb_key, fkey_zero in H0. rewrite ltb_key, fkey_one in H1.
    destruct (fkey avg) as [a|] eqn:E; [|discriminate].
    apply Z.ltb_lt in H0, H1.
    assert (K : 2 ^ 1074 < 2 ^ 2100) by (apply Z.pow_lt_mono_r; lia).
    exists (rne_div (a * 100) (2 ^ 1074)). split.
    + apply rne_div_bounds; lia.
    + apply (py_round_key avg a E). lia.
Qed.

(** *** Building the corpus *)

Lemma load_txt_run (P : providers) (path : str) (w : world) :
  ingest.load_txt P path w =
  (match open_lines P path with
   | Returns f => Returns (kept_lines f)
   | Raises e => Raises e
   end,
   after_call w (OpenFile path)).
Proof.
  unfold ingest.load_txt, bind, external, ret, after_call, kept_lines.
  destruct (open_lines P path); reflexivity.
Qed.

Lemma load_pdf_run (P : providers) (path : str) (w : world) :
  ingest.load_pdf P path w = (PyPDFLoader_load P path, after_call w (LoadPdf path)).
Proof. reflexivity. Qed.

Lemma embed_texts_run (P : providers) (texts : list str) (w : world) :
  model_ready P w ->
  retriever.embed_texts P texts w =
  (match embed_documents P (calls w) texts with
   | Returns vectors =>
       if rectangular vectors then Returns (Some vectors)
       else Raises (ValueError (inhomogeneous (List.length vectors)))
   | Raises e => Raises e
   end,
   after_embedding w (EmbedDocuments texts)).
Proof.
  intros R. unfold retriever.embed_texts, bind.
  rewrite (get_embeddings_model_ready P w R).
  unfold external, ret, lift, after_embedding, np_array.
  cbn [calls embeddings_model llm DOCUMENTS DOC_EMBEDDINGS].
  destruct (embed_documents P (calls w) texts) as [vectors|]; [|reflexivity].
  destruct (rectangular vectors); reflexivity.
Qed.

Lemma embed_texts_unavailable (P : providers) (texts : list str) (w : world)
      (e : exn) :
  embeddings_model w = false -> OpenAIEmbeddings P = Raises e ->
  retriever.embed_texts P texts w = (Raises e, w).
Proof.
  intros H1 H2. unfold retriever.embed_texts, bind.
  rewrite (get_embeddings_model_unavailable P w e H1 H2). reflexivity.
Qed.

Lemma kept_lines_trimmed (f : list str) :
  Forall (fun line => line <> [] /\ trimmed line) (kept_lines f).
Proof.
  apply Forall_forall. intros line Hl. unfold kept_lines in Hl.
  apply in_map_iff in Hl. destruct Hl as (l & <- & Hf).
  apply filter_In in Hf. destruct Hf as [_ Hn]. split.
  - intros E. rewrite E in Hn. discriminate.
  - apply strip_trimmed.
Qed.

Lemma kept_lines_blank (f : list str) :
  Forall (Forall (fun c => isspace c = true)) f -> kept_lines f = [].
Proof.
  unfold kept_lines. induction 1 as [|l f Hl _ IH]; [reflexivity|].
  cbn [filter]. rewrite (strip_blank l Hl). cbn. exact IH.
Qed.

(** X13. Whatever [build_index] returns comes from a path ending in ".txt": the
    documents are the non-blank lines of that file without their surrounding
    whitespace, the embeddings are the provider's answer to one request for
    exactly these documents, made after the file was read, and the corpus
    held by the process is not touched.  When the file cannot be read the
    exception is passed on and nothing is embedded. *)
Theorem build_index_pairs_documents_with_embeddings (P : providers)
        (path : str) (w : world) :
  (forall documents doc_embeddings w',
      retriever.build_index P path w
      = (Returns (documents, doc_embeddings), w') ->
      endswith path (lit ".txt") = true
      /\ Forall (fun line => line <> [] /\ trimmed line) documents
      /\ (exists f vectors,
             open_lines P path = Returns f
             /\ documents = kept_lines f
             /\ embed_documents P (calls w ++ [OpenFile path]) documents
                = Returns vectors
             /\ doc_embeddings = Some vectors)
      /\ extends_by w w' [OpenFile path; EmbedDocuments documents])
  /\ (forall e,
         endswith path (lit ".txt") = true ->
         open_lines P path = Raises e ->
         retriever.build_index P path w = (Raises e, after_call w (OpenFile path))).
Proof.
  split.
  - intros documents doc_embeddings w' H.
    unfold retriever.build_index, bind, ingest.load_documents in H.
    destruct (endswith path (lit ".txt")) eqn:T; [|discriminate].
    rewrite load_txt_run in H.
    destruct (open_lines P path) as [f|e] eqn:O; [|discriminate].
    destruct (model_ready_or_not P (after_call w (OpenFile path)))
      as [R | (F & e & E)].
    + rewrite (embed_texts_run P _ _ R) in H. cbn [after_call calls] in H.
      destruct (embed_documents P (calls w ++ [OpenFile path]) (kept_lines f))
        as [vectors|e] eqn:V; [|discriminate].
      destruct (rectangular vectors); [|discriminate].
      unfold ret in H. injection H as <- <- <-.
      split; [reflexivity|]. split; [apply kept_lines_trimmed|]. split.
      * exists f, vectors. auto.
      * unfold extends_by, after_embedding, after_call.
        cbn [DOCUMENTS DOC_EMBEDDINGS calls]. rewrite <- app_assoc.
        repeat split.
    + rewrite (embed_texts_unavailable P _ _ e F E) in H. discriminate.
  - intros e T O. unfold retriever.build_index, bind, ingest.load_documents.
    rewrite T, load_txt_run, O. reflexivity.
Qed.

Lemma build_index_pairs_documents_with_embeddings_witness :
  retriever.build_index missing_file (lit "input.txt") fresh
  = (Raises (ExternalError (lit "No such file or directory")),
     after_call fresh (OpenFile (lit "input.txt"))).
Proof.
  apply (proj2 (build_index_pairs_documents_with_embeddings missing_file
                  (lit "input.txt") fresh)).
  - reflexivity.
  - reflexivity.
Defined.

(** *** Startup *)

Lemma startup_event_eq (P : providers) (w : world) :
  main.startup_event P w =
  match startup_attempt P w with
  | (Returns (documents, doc_embeddings), w') =>
      (Returns tt,
       mkWorld (embeddings_model w') (llm w') (Some documents)
               doc_embeddings (calls w'))
  | (Raises _, w') =>
      (Returns tt,
       mkWorld (embeddings_model w') (llm w') (Some []) None (calls w'))
  end.
Proof. reflexivity. Qed.

Lemma startup_attempt_returns (P : providers) (w w' : world)
      (documents : list str) (doc_embeddings : option (list vec)) :
  startup_attempt P w = (Returns (documents, doc_embeddings), w') ->
  exists f pages vectors,
    open_lines P (lit "data/input.txt") = Returns f
    /\ PyPDFLoader_load P (lit "data/doc.pdf") = Returns pages
    /\ documents = kept_lines f ++ pages
    /\ doc_embeddings = Some vectors
    /\ embed_documents P
         (calls w ++ [OpenFile (lit "data/input.txt"); LoadPdf (lit "data/doc.pdf")])
         documents = Returns vectors
    /\ rectangular vectors = true
    /\ llm w' = llm w
    /\ calls w' = calls w ++ [OpenFile (lit "data/input.txt");
                              LoadPdf (lit "data/doc.pdf");
                              EmbedDocuments documents].
Proof.
  unfold startup_attempt, bind. rewrite load_txt_run.
  destruct (open_lines P (lit "data/input.txt")) as [f|e]; [|discriminate].
  rewrite load_pdf_run.
  destruct (PyPDFLoader_load P (lit "data/doc.pdf")) as [pages|e]; [|discriminate].
  set (w2 := after_call (after_call w _) _).
  destruct (model_ready_or_not P w2) as [R | (F & e & E)].
  - rewrite (embed_texts_run P _ _ R).
    assert (C2 : calls w2 = calls w ++ [OpenFile (lit "data/input.txt");
                                        LoadPdf (lit "data/doc.pdf")])
      by (unfold w2, after_call; cbn [calls]; rewrite <- app_assoc; reflexivity).
    rewrite C2.
    destruct (embed_documents P _ (kept_lines f ++ pages)) as [vectors|e] eqn:V;
      [|discriminate].
    destruct (rectangular vectors) eqn:T; [|discriminate].
    unfold ret. intros H. injection H as <- <- <-.
    exists f, pages, vectors. repeat split; auto.
    unfold after_embedding. cbn [calls]. rewrite C2, <- app_assoc. reflexivity.
  - rewrite (embed_texts_unavailable P _ _ e F E). discriminate.
Qed.

(** Whatever becomes of it, the attempt leaves the chat client alone. *)
Lemma startup_attempt_llm (P : providers) (w : world) :
  llm (snd (startup_attempt P w)) = llm w.
Proof.
  unfold startup_attempt, bind. rewrite load_txt_run.
  destruct (open_lines P (lit "data/input.txt")) as [f|e]; [|reflexivity].
  rewrite load_pdf_run.
  destruct (PyPDFLoader_load P (lit "data/doc.pdf")) as [pages|e]; [|reflexivity].
  set (w2 := after_call (after_call w _) _).
  destruct (model_ready_or_not P w2) as [R | (F & e & E)].
  - rewrite (embed_texts_run P _ _ R).
    destruct (embed_documents P _ _) as [vectors|e]; [|reflexivity].
    destruct (rectangular vectors); reflexivity.
  - rewrite (embed_texts_unavailable P _ _ e F E). reflexivity.
Qed.

(** X14. [startup_event] never raises and always leaves a corpus behind, whatever
    was loaded before: either the documents with an embedding array, or, when
    reading or embedding failed, the empty list with no array.  It never
    leaves documents without an array, so [/health] reports embeddings ready
    whenever it reports healthy. *)
Theorem startup_event_leaves_a_corpus (P : providers) (w : world) :
  exists w',
    main.startup_event P w = (Returns tt, w')
    /\ llm w' = llm w
    /\ ((exists documents vectors,
            DOCUMENTS w' = Some documents /\ DOC_EMBEDDINGS w' = Some vectors)
        \/ (DOCUMENTS w' = Some [] /\ DOC_EMBEDDINGS w' = None))
    /\ (main.status (main.health_check w') = lit "healthy" ->
        main.embeddings_ready (main.health_check w') = true).
Proof.
  rewrite startup_event_eq. pose proof (startup_attempt_llm P w) as L.
  destruct (startup_attempt P w) as [[[documents E]|e] w1] eqn:A; cbn [snd] in L.
  - destruct (startup_attempt_returns _ _ _ _ _ A)
      as (f & pages & vectors & _ & _ & _ & -> & _).
    eexists. split; [reflexivity|]. cbn [llm DOCUMENTS DOC_EMBEDDINGS].
    split; [exact L|]. split; [left; eauto|].
    intros _. unfold main.health_check. cbn [DOCUMENTS DOC_EMBEDDINGS].
    destruct documents; reflexivity.
  - eexists. split; [reflexivity|]. cbn [llm DOCUMENTS DOC_EMBEDDINGS].
    split; [exact L|]. split; [right; auto|]. intros H. discriminate H.
Qed.

Lemma startup_attempt_fails (P : providers) (w : world) (e : exn) :
  open_lines P (lit "data/input.txt") = Raises e
  \/ PyPDFLoader_load P (lit "data/doc.pdf") = Raises e
  \/ (embeddings_model w = false /\ OpenAIEmbeddings P = Raises e)
  \/ (forall history texts, embed_documents P history texts = Raises e) ->
  exists e', fst (startup_attempt P w) = Raises e'.
Proof.
  intros H. unfold startup_attempt, bind. rewrite load_txt_run.
  destruct (open_lines P (lit "data/input.txt")) as [f|e1] eqn:O;
    [|eexists; reflexivity].
  rewrite load_pdf_run.
  destruct (PyPDFLoader_load P (lit "data/doc.pdf")) as [pages|e2] eqn:L;
    [|eexists; reflexivity].
  set (w2 := after_call (after_call w _) _).
  destruct (model_ready_or_not P w2) as [R | (F & e3 & E)].
  - rewrite (embed_texts_run P _ _ R).
    destruct H as [H | [H | [[H1 H2] | H]]]; try discriminate.
    + exfalso. destruct R as [R | R]; [|congruence].
      unfold w2 in R. cbn in R. congruence.
    + rewrite H. eexists. reflexivity.
  - rewrite (embed_texts_unavailable P _ _ e3 F E). eexists. reflexivity.
Qed.

(** X15. When the text file or the PDF cannot be read, the embedding client
    cannot be built, or the embedding request fails, [startup_event] still
    returns and leaves the empty corpus; from then on [/ask] refuses every
    request with the "Documents not loaded" message without calling any
    provider, [/health] reports "documents_not_loaded" with no embeddings,
    and [/stats] reports zeros. *)
Theorem failed_startup_refuses_every_question (P : providers) (w : world)
        (e : exn) :
  open_lines P (lit "data/input.txt") = Raises e
  \/ PyPDFLoader_load P (lit "data/doc.pdf") = Raises e
  \/ (embeddings_model w = false /\ OpenAIEmbeddings P = Raises e)
  \/ (forall history texts, embed_documents P history texts = Raises e) ->
  let w' := snd (main.startup_event P w) in
  fst (main.startup_event P w) = Returns tt
  /\ DOCUMENTS w' = Some [] /\ DOC_EMBEDDINGS w' = None
  /\ (forall P' payload,
         main.ask_question P' payload w'
         = (Returns (refusal payload NOT_LOADED), w'))
  /\ main.health_check w'
     = main.mkHealth (lit "documents_not_loaded") 0 false
         (lit "Set OPENAI_API_KEY environment variable to enable document loading")
  /\ main.get_stats w' = Returns (main.mkStats 0 0 0).
Proof.
  intros H. destruct (startup_attempt_fails P w e H) as [e' A].
  rewrite startup_event_eq.
  destruct (startup_attempt P w) as [[r|e''] w1]; [discriminate A|].
  cbn [fst snd]. cbn [DOCUMENTS DOC_EMBEDDINGS].
  repeat split.
Qed.

Lemma failed_startup_refuses_every_question_witness :
  main.ask_question fake (main.mkRequest mammals 2)
                    (snd (main.startup_event missing_file fresh))
  = (Returns (refusal (main.mkRequest mammals 2) NOT_LOADED),
     snd (main.startup_event missing_file fresh)).
Proof.
  refine (proj1 (proj2 (proj2 (proj2
            (failed_startup_refuses_every_question missing_file fresh
               (ExternalError (lit "No such file or directory")) _)))) _ _).
  left. reflexivity.
Defined.

Lemma startup_event_run (P : providers) (w : world)
      (f pages : list str) (vectors : list vec) :
  model_ready P w ->
  open_lines P (lit "data/input.txt") = Returns f ->
  PyPDFLoader_load P (lit "data/doc.pdf") = Returns pages ->
  embed_documents P
    (calls w ++ [OpenFile (lit "data/input.txt"); LoadPdf (lit "data/doc.pdf")])
    (kept_lines f ++ pages) = Returns vectors ->
  main.startup_event P w =
  (Returns tt,
   mkWorld true (llm w)
           (Some (if rectangular vectors then kept_lines f ++ pages else []))
           (if rectangular vectors then Some vectors else None)
           (calls w ++ [OpenFile (lit "data/input.txt");
                        LoadPdf (lit "data/doc.pdf");
                        EmbedDocuments (kept_lines f ++ pages)])).
Proof.
  intros R O L V.
  rewrite startup_event_eq. unfold startup_attempt, bind.
  rewrite load_txt_run, O, load_pdf_run, L.
  set (w2 := after_call (after_call w _) _).
  assert (R2 : model_ready P w2) by exact R.
  assert (C2 : calls w2 = calls w ++ [OpenFile (lit "data/input.txt");
                                      LoadPdf (lit "data/doc.pdf")])
    by (unfold w2, after_call; cbn [calls]; rewrite <- app_assoc; reflexivity).
  rewrite (embed_texts_run P _ _ R2), C2, V. unfold ret, after_embedding.
  destruct (rectangular vectors);
    cbn [embeddings_model llm calls]; rewrite C2, <- app_assoc; reflexivity.
Qed.

(** X16. When both sources can be read and the embedding request is answered
    with vectors of one length, the corpus after [startup_event] is the
    non-blank lines of the text file, each without its surrounding
    whitespace, followed by the pages of the PDF as the loader gave them
    (blank pages included), and its embeddings are the answer to one request
    for exactly this list.  When the vectors of the answer are not of one
    length, numpy refuses them and the corpus is left empty, the three calls
    made. *)
Theorem startup_event_loads_text_then_pdf (P : providers) (w : world)
        (f pages : list str) (vectors : list vec) :
  model_ready P w ->
  open_lines P (lit "data/input.txt") = Returns f ->
  PyPDFLoader_load P (lit "data/doc.pdf") = Returns pages ->
  embed_documents P
    (calls w ++ [OpenFile (lit "data/input.txt"); LoadPdf (lit "data/doc.pdf")])
    (kept_lines f ++ pages) = Returns vectors ->
  let made := calls w ++ [OpenFile (lit "data/input.txt");
                          LoadPdf (lit "data/doc.pdf");
                          EmbedDocuments (kept_lines f ++ pages)] in
  (rectangular vectors = true ->
   main.startup_event P w =
   (Returns tt,
    mkWorld true (llm w) (Some (kept_lines f ++ pages)) (Some vectors) made))
  /\ (rectangular vectors = false ->
      main.startup_event P w =
      (Returns tt, mkWorld true (llm w) (Some []) None made))
  /\ Forall (fun line => line <> [] /\ trimmed line) (kept_lines f).
Proof.
  intros R O L V made.
  pose proof (startup_event_run P w f pages vectors R O L V) as S.
  split; [|split; [|apply kept_lines_trimmed]]; intros T; rewrite T in S;
    exact S.
Qed.

Lemma startup_event_loads_text_then_pdf_witness :
  main.startup_event fake fresh =
  (Returns tt,
   mkWorld true false (Some two_documents) tied_rows
           [OpenFile (lit "data/input.txt"); LoadPdf (lit "data/doc.pdf");
            EmbedDocuments two_documents]).
Proof.
  refine (proj1 (startup_event_loads_text_then_pdf fake fresh
                   [lit "cats are mammals"] [lit "the stock market fell today"]
                   [[1%float; 0%float]; [1%float; 0%float]] _ _ _ _) _).
  - right. reflexivity.
  - reflexivity.
  - reflexivity.
  - reflexivity.
  - reflexivity.
Defined.

(** *** [/health] and [/stats] *)

(** X17. [/health] and [/ask] agree: [/health] reports "documents_not_loaded"
    exactly when [/ask] refuses every request with the "Documents not
    loaded" message and calls nothing; and the number of documents it
    reports is zero exactly then. *)
Theorem health_agrees_with_ask (w : world) :
  (main.status (main.health_check w) = lit "documents_not_loaded" <->
   forall P payload,
     main.ask_question P payload w = (Returns (refusal payload NOT_LOADED), w))
  /\ (main.status (main.health_check w) = lit "documents_not_loaded" <->
      main.documents_loaded (main.health_check w) = 0%nat)
  /\ (main.status (main.health_check w) = lit "healthy"
      \/ main.status (main.health_check w) = lit "documents_not_loaded").
Proof.
  unfold main.health_check, main.ask_question.
  destruct (DOCUMENTS w) as [[|d ds]|]; cbn [main.status main.documents_loaded].
  - split; [|split]; [split; reflexivity | split; reflexivity | right; reflexivity].
  - split; [|split].
    + split; [discriminate|]. intros H.
      specialize (H fake (main.mkRequest [] 0)). cbn in H. discriminate H.
    + split; [discriminate | cbn; discriminate].
    + left. reflexivity.
  - split; [|split]; [split; reflexivity | split; reflexivity | right; reflexivity].
Qed.

(** X18. After a startup that finds no content (a text file of blank lines, a
    PDF without pages) and embeds the empty list to the empty array,
    [/stats] raises [IndexError]: the array has one dimension and
    [shape[1]] does not exist; [/health] meanwhile reports
    "documents_not_loaded" with embeddings ready. *)
Theorem stats_fails_on_empty_corpus (P : providers) (w : world) (f : list str) :
  model_ready P w ->
  open_lines P (lit "data/input.txt") = Returns f ->
  Forall (Forall (fun c => isspace c = true)) f ->
  PyPDFLoader_load P (lit "data/doc.pdf") = Returns [] ->
  embed_documents P
    (calls w ++ [OpenFile (lit "data/input.txt"); LoadPdf (lit "data/doc.pdf")])
    [] = Returns [] ->
  let w' := snd (main.startup_event P w) in
  main.get_stats w' = Raises (IndexError (lit "tuple index out of range"))
  /\ main.health_check w'
     = main.mkHealth (lit "documents_not_loaded") 0 true
         (lit "Set OPENAI_API_KEY environment variable to enable document loading").
Proof.
  intros R O B L V w'.
  assert (K : kept_lines f ++ [] = []) by (rewrite (kept_lines_blank f B); reflexivity).
  pose proof (startup_event_run P w f [] [] R O L) as S.
  rewrite K in S. specialize (S V).
  unfold w'. rewrite S. split; reflexivity.
Qed.

Lemma stats_fails_on_empty_corpus_witness :
  main.get_stats (snd (main.startup_event empty_sources fresh))
  = Raises (IndexError (lit "tuple index out of range"))
  /\ main.health_check (snd (main.startup_event empty_sources fresh))
     = main.mkHealth (lit "documents_not_loaded") 0 true
         (lit "Set OPENAI_API_KEY environment variable to enable document loading").
Proof.
  apply (stats_fails_on_empty_corpus empty_sources fresh [lit "  "; [10%N]]).
  - right. reflexivity.
  - reflexivity.
  - repeat constructor.
  - reflexivity.
  - reflexivity.
Defined.

Lemma rectangular_rows (rows : list vec) :
  rectangular rows = true ->
  Forall (fun row => List.length row = List.length (hd [] rows)) rows.
Proof.
  destruct rows as [|row rest]; intros T; [constructor|].
  cbn [hd]. constructor; [reflexivity|].
  cbn [rectangular] in T. rewrite forallb_forall in T.
  apply Forall_forall. intros r Hr. apply Nat.eqb_eq. apply T. exact Hr.
Qed.

(** X19. After a startup that loads at least one document and gets one vector
    per document, all of one length, [/stats] returns, and reports as many
    documents as embeddings, with the length of the vectors as the
    dimension; [/health] reports "healthy" with the same count. *)
Theorem stats_after_startup (P : providers) (w : world)
        (f pages : list str) (vectors : list vec) :
  model_ready P w ->
  open_lines P (lit "data/input.txt") = Returns f ->
  PyPDFLoader_load P (lit "data/doc.pdf") = Returns pages ->
  embed_documents P
    (calls w ++ [OpenFile (lit "data/input.txt"); LoadPdf (lit "data/doc.pdf")])
    (kept_lines f ++ pages) = Returns vectors ->
  kept_lines f ++ pages <> [] ->
  List.length vectors = List.length (kept_lines f ++ pages) ->
  rectangular vectors = true ->
  let w' := snd (main.startup_event P w) in
  let n := List.length (kept_lines f ++ pages) in
  main.get_stats w' = Returns (main.mkStats n (List.length (hd [] vectors)) n)
  /\ Forall (fun row => List.length row = List.length (hd [] vectors)) vectors
  /\ main.health_check w' = main.mkHealth (lit "healthy") n true (lit "Ready").
Proof.
  intros R O L V N E T w' n.
  unfold w'. rewrite (startup_event_run P w f pages vectors R O L V), T.
  cbn [snd]. unfold main.get_stats, main.health_check.
  cbn [DOCUMENTS DOC_EMBEDDINGS]. fold n in E.
  split; [|split; [apply rectangular_rows; exact T|]].
  - destruct (kept_lines f ++ pages) as [|d ds] eqn:D; [congruence|].
    destruct vectors as [|row rows]; [discriminate E|].
    cbn [hd]. rewrite E. reflexivity.
  - destruct (kept_lines f ++ pages) as [|d ds] eqn:D; [congruence|].
    reflexivity.
Qed.

Lemma stats_after_startup_witness :
  main.get_stats (snd (main.startup_event fake fresh))
  = Returns (main.mkStats 2 2 2)
  /\ Forall (fun row => List.length row = 2%nat)
            [[1%float; 0%float]; [1%float; 0%float]]
  /\ main.health_check (snd (main.startup_event fake fresh))
     = main.mkHealth (lit "healthy") 2 true (lit "Ready").
Proof.
  apply (stats_after_startup fake fresh
           [lit "cats are mammals"] [lit "the stock market fell today"]
           [[1%float; 0%float]; [1%float; 0%float]]).
  - right. reflexivity.
  - reflexivity.
  - reflexivity.
  - reflexivity.
  - vm_compute. discriminate.
  - reflexivity.
  - reflexivity.
Defined.

(** *** What a request does to the world *)

Lemma rag_model_unavailable (P : providers) (question : str)
      (documents : list str) (doc_embeddings : option (list vec)) (k : Z)
      (w : world) (e : exn) :
  embeddings_model w = false -> OpenAIEmbeddings P = Raises e ->
  rag_graph.rag P question documents doc_embeddings k w = (Raises e, w).
Proof.
  intros H1 H2. unfold rag_graph.rag, retriever.retrieve, bind.
  rewrite (get_embeddings_model_unavailable P w e H1 H2). reflexivity.
Qed.

Lemma rag_llm_unavailable (P : providers) (question : str)
      (documents : list str) (doc_embeddings : option (list vec)) (k : Z)
      (w : world) (v : vec) (top_docs : list str) (top_scores : list float)
      (e : exn) :
  model_ready P w ->
  embed_query P (calls w) question = Returns v ->
  select P v documents doc_embeddings k = Returns (top_docs, top_scores) ->
  llm w = false -> ChatOpenAI P = Raises e ->
  rag_graph.rag P question documents doc_embeddings k w
  = (Raises e, after_embedding w (EmbedQuery question)).
Proof.
  intros R E S H1 H2. unfold rag_graph.rag, bind.
  rewrite (retrieve_run _ _ _ _ _ _ v R E), S.
  rewrite (generate_answer_unavailable P _ _ _ e); [reflexivity | exact H1 | exact H2].
Qed.

Lemma rag_ends (P : providers) (question : str) (documents : list str)
      (doc_embeddings : option (list vec)) (k : Z) (w : world) :
  rag_ending P question documents w
             (rag_graph.rag P question documents doc_embeddings k w).
Proof.
  destruct (model_ready_or_not P w) as [R | (F & e & E)].
  2:{ rewrite (rag_model_unavailable _ _ _ _ _ _ e F E).
      constructor; assumption. }
  destruct (embed_query P (calls w) question) as [v|e] eqn:Q.
  2:{ rewrite (rag_embedding_failure _ _ _ _ _ _ _ R Q).
      constructor. exact R. }
  destruct (select P v documents doc_embeddings k) as [[td ts]|e] eqn:S.
  2:{ rewrite (rag_retrieval_failure _ _ _ _ _ _ _ _ R Q S).
      constructor. exact R. }
  destruct (llm_ready_or_not P w) as [L | (F & e & E)].
  2:{ rewrite (rag_llm_unavailable _ _ _ _ _ _ _ _ _ _ R Q S F E).
      constructor. exact R. }
  rewrite (rag_run _ _ _ _ _ _ _ _ _ R Q S L).
  assert (I : incl td documents).
  { destruct (select_inv _ _ _ _ _ _ _ S) as (scores & _ & F & -> & _).
    apply nth_map_incl. exact F. }
  destruct (chat_invoke P _ SYSTEM _) as [answer|e].
  - apply answered; assumption.
  - apply generation_failed; assumption.
Qed.

Lemma ask_question_cases (P : providers) (payload : main.QuestionRequest)
      (w : world) :
  let question := main.req_question payload in
  (main.ask_question P payload w = (Returns (refusal payload NOT_LOADED), w)
   /\ forall d ds, DOCUMENTS w <> Some (d :: ds))
  \/ (main.ask_question P payload w
      = (Returns (refusal payload INVALID_QUESTION), w)
      /\ Forall (fun c => isspace c = true) question)
  \/ (exists d ds,
        DOCUMENTS w = Some (d :: ds)
        /\ Exists (fun c => isspace c = false) question
        /\ main.ask_question P payload w =
           match rag_graph.rag P question (d :: ds) (DOC_EMBEDDINGS w)
                               (main.req_k payload) w with
           | (Returns (answer, contexts, confidence), w') =>
               (Returns (main.mkResponse question (main.req_k payload)
                                         answer contexts confidence), w')
           | (Raises e, w') => (Returns (refusal payload (error_message e)), w')
           end).
Proof.
  intros question.
  destruct (DOCUMENTS w) as [[|d ds]|] eqn:D.
  - left. unfold main.ask_question. rewrite D. split; [reflexivity | discriminate].
  - destruct (blank_or_not question) as [B | B].
    + right; left. split; [|exact B].
      unfold main.ask_question. rewrite D. fold question.
      rewrite (strip_blank _ B). cbn [str_eqb]. rewrite orb_true_r. reflexivity.
    + right; right. exists d, ds. split; [reflexivity|]. split; [exact B|].
      apply ask_question_guarded; [exact D|]. apply strip_nonblank. exact B.
  - left. unfold main.ask_question. rewrite D. split; [reflexivity | discriminate].
Qed.

(** X20. A request never changes the corpus and calls the providers at most
    twice: nothing, or the embedding of the question, or that embedding
    followed by one chat call whose prompt holds documents of the corpus. *)
Theorem ask_question_leaves_corpus (P : providers)
        (payload : main.QuestionRequest) (w : world) :
  let question := main.req_question payload in
  exists cs,
    extends_by w (snd (main.ask_question P payload w)) cs
    /\ (cs = []
        \/ cs = [EmbedQuery question]
        \/ exists ctxs,
            incl ctxs (corpus w)
            /\ cs = [EmbedQuery question;
                     ChatInvoke SYSTEM
                       (generator.prompt question (join [10%N] ctxs))]).
Proof.
  intros question.
  assert (N : extends_by w w []) by (unfold extends_by; rewrite app_nil_r; auto).
  destruct (ask_question_cases P payload w)
    as [[-> _] | [[-> _] | (d & ds & D & _ & ->)]];
    try (exists []; split; [exact N | left; reflexivity]).
  fold question.
  pose proof (rag_ends P question (d :: ds) (DOC_EMBEDDINGS w)
                       (main.req_k payload) w) as H.
  assert (C : corpus w = d :: ds) by (unfold corpus; rewrite D; reflexivity).
  inversion H as [e F E Hr | e R Hr | e ctxs R I Hr | a ctxs ts R I Hr];
    cbn [snd].
  - exists []. split; [exact N | left; reflexivity].
  - exists [EmbedQuery question]. split; [|right; left; reflexivity].
    unfold extends_by, after_embedding. cbn. auto.
  - eexists. split; [|right; right; exists ctxs; split; [rewrite C; exact I | reflexivity]].
    unfold extends_by, after_generation, after_embedding.
    cbn [DOCUMENTS DOC_EMBEDDINGS calls]. rewrite <- app_assoc. auto.
  - eexists. split; [|right; right; exists ctxs; split; [rewrite C; exact I | reflexivity]].
    unfold extends_by, after_generation, after_embedding.
    cbn [DOCUMENTS DOC_EMBEDDINGS calls]. rewrite <- app_assoc. auto.
Qed.

(** X21. Every request gets a response, which repeats the question and [k] of
    the request, has a confidence between 0 and 1, and has for contexts
    documents of the corpus only. *)
Theorem ask_question_response_is_sound (P : providers)
        (payload : main.QuestionRequest) (w : world) :
  exists response,
    fst (main.ask_question P payload w) = Returns response
    /\ main.question response = main.req_question payload
    /\ main.k response = main.req_k payload
    /\ (0 <=? main.confidence response)%float = true
    /\ (main.confidence response <=? 1)%float = true
    /\ incl (main.contexts response) (corpus w).
Proof.
  assert (Z : forall message,
             main.question (refusal payload message) = main.req_question payload
             /\ main.k (refusal payload message) = main.req_k payload
             /\ (0 <=? main.confidence (refusal payload message))%float = true
             /\ (main.confidence (refusal payload message) <=? 1)%float = true
             /\ incl (main.contexts (refusal payload message)) (corpus w)).
  { intros message. cbn. repeat split. intros x []. }
  destruct (ask_question_cases P payload w)
    as [[-> _] | [[-> _] | (d & ds & D & _ & ->)]];
    try (eexists; split; [reflexivity | apply Z]).
  pose proof (rag_ends P (main.req_question payload) (d :: ds)
                       (DOC_EMBEDDINGS w) (main.req_k payload) w) as H.
  assert (C : corpus w = d :: ds) by (unfold corpus; rewrite D; reflexivity).
  inversion H as [e F E Hr | e R Hr | e ctxs R I Hr | a ctxs ts R I Hr];
    try (eexists; split; [reflexivity | apply Z]).
  eexists. split; [reflexivity|]. cbn [main.question main.k main.confidence main.contexts].
  split; [reflexivity|]. split; [reflexivity|].
  rewrite C. split; [|split; [|exact I]].
  - destruct ts as [|x ts]; [reflexivity|]. apply clamped_round_unit.
  - destruct ts as [|x ts]; [reflexivity|]. apply clamped_round_unit.
Qed.

(** X22. Once the embedding client exists or can be built, a request reaches the
    embedding provider exactly when documents are loaded and the question
    holds a character that is not whitespace. *)
Theorem question_is_embedded_iff (P : providers)
        (payload : main.QuestionRequest) (w : world) :
  model_ready P w ->
  (In (EmbedQuery (main.req_question payload))
      (new_calls w (snd (main.ask_question P payload w)))
   <-> (exists d ds, DOCUMENTS w = Some (d :: ds))
       /\ Exists (fun c => isspace c = false) (main.req_question payload)).
Proof.
  intros R.
  assert (N : new_calls w w = []) by (apply new_calls_app; rewrite app_nil_r; reflexivity).
  destruct (ask_question_cases P payload w)
    as [[-> ND] | [[-> B] | (d & ds & D & B & ->)]]; cbn [snd].
  - rewrite N. split; [intros [] | intros [(d & ds & D) _]].
    exfalso. exact (ND d ds D).
  - rewrite N. split; [intros [] | intros [_ E]].
    exfalso. apply Exists_exists in E. destruct E as (c & Hc & Hn).
    rewrite Forall_forall in B. rewrite (B c Hc) in Hn. discriminate.
  - split; [intros _; split; [eauto | exact B]|]. intros _.
    pose proof (rag_ends P (main.req_question payload) (d :: ds)
                         (DOC_EMBEDDINGS w) (main.req_k payload) w) as H.
    inversion H as [e F E Hr | e R' Hr | e ctxs R' I Hr | a ctxs ts R' I Hr];
      cbn [snd].
    + exfalso. destruct R as [R | R]; congruence.
    + rewrite (new_calls_app w _ [EmbedQuery (main.req_question payload)]);
        [left; reflexivity | reflexivity].
    + rewrite (new_calls_app w _
                 [EmbedQuery (main.req_question payload);
                  ChatInvoke SYSTEM
                    (generator.prompt (main.req_question payload)
                                      (join [10%N] ctxs))]);
        [left; reflexivity|].
      cbn [after_generation after_embedding calls]. rewrite <- app_assoc.
      reflexivity.
    + rewrite (new_calls_app w _
                 [EmbedQuery (main.req_question payload);
                  ChatInvoke SYSTEM
                    (generator.prompt (main.req_question payload)
                                      (join [10%N] ctxs))]);
        [left; reflexivity|].
      cbn [after_generation after_embedding calls]. rewrite <- app_assoc.
      reflexivity.
Qed.

Lemma question_is_embedded_iff_witness :
  In (EmbedQuery mammals)
     (new_calls loaded
        (snd (main.ask_question fake (main.mkRequest mammals 1) loaded)))
  <-> (exists d ds, DOCUMENTS loaded = Some (d :: ds))
      /\ Exists (fun c => isspace c = false) mammals.
Proof.
  apply (question_is_embedded_iff fake (main.mkRequest mammals 1) loaded).
  right. reflexivity.
Defined.

(** *** The confidence follows the mean *)

Lemma nan_key (x : float) : PrimFloat.is_nan x = true -> fkey x = None.
Proof.
  unfold PrimFloat.is_nan. rewrite eqb_key.
  destruct (fkey x) as [a|]; [|reflexivity].
  rewrite Z.eqb_refl. discriminate.
Qed.

(** X11. A list of scores whose mean is NaN gets the confidence 1.0: [min(1.0,
    nan)] is [1.0]. *)
Theorem compute_confidence_of_nan (scores : list float) :
  scores <> [] ->
  PrimFloat.is_nan (mean scores) = true ->
  rag_graph.compute_confidence scores = 1%float.
Proof.
  intros N H. destruct scores as [|x scores]; [congruence|].
  unfold rag_graph.compute_confidence. fold (mean (x :: scores)). cbv zeta.
  unfold py_min. rewrite ltb_key, (nan_key _ H).
  unfold py_max. change (0 <? 1)%float with true. cbv iota.
  apply py_round_one.
Qed.

Lemma compute_confidence_of_nan_witness :
  rag_graph.compute_confidence [infinity; neg_infinity] = 1%float.
Proof.
  apply (compute_confidence_of_nan [infinity; neg_infinity]).
  - discriminate.
  - vm_compute. reflexivity.
Defined.

Lemma rne_div_mono (a a' b : Z) :
  0 < b -> a <= a' -> rne_div a b <= rne_div a' b.
Proof.
  intros Hb Ha. unfold rne_div.
  pose proof (Z.div_mod a b ltac:(lia)) as D.
  pose proof (Z.div_mod a' b ltac:(lia)) as D'.
  pose proof (Z.mod_pos_bound a b Hb) as R.
  pose proof (Z.mod_pos_bound a' b Hb) as R'.
  pose proof (Z.div_le_mono a a' b Hb Ha) as Q.
  set (q := a / b) in *. set (r := a mod b) in *.
  set (q' := a' / b) in *. set (r' := a' mod b) in *.
  destruct (Z.eq_dec q q') as [E | E].
  - rewrite <- E in *. assert (r <= r') by nia.
    destruct (Z.compare_spec (2 * r) b), (Z.compare_spec (2 * r') b);
      destruct (Z.even q); lia.
  - assert (q + 1 <= q') by lia.
    destruct (Z.compare_spec (2 * r) b), (Z.compare_spec (2 * r') b);
      destruct (Z.even q), (Z.even q'); lia.
Qed.

Lemma hundredths_of_range (a : Z) : 0 <= hundredths_of a <= 100.
Proof.
  unfold hundredths_of.
  destruct (a <=? 0) eqn:L0; [lia|]. apply Z.leb_gt in L0.
  destruct (2 ^ 1074 <=? a) eqn:L1; [lia|]. apply Z.leb_gt in L1.
  apply rne_div_bounds; lia.
Qed.

Lemma hundredths_of_mono (a a' : Z) :
  a <= a' -> hundredths_of a <= hundredths_of a'.
Proof.
  intros H. pose proof (hundredths_of_range a) as Ra.
  pose proof (hundredths_of_range a') as Ra'.
  unfold hundredths_of in *.
  assert (K : 0 < 2 ^ 1074) by (apply Z.pow_pos_nonneg; lia).
  destruct (a <=? 0) eqn:L0; [lia|]. apply Z.leb_gt in L0.
  destruct (a' <=? 0) eqn:L0'; [apply Z.leb_le in L0'; lia|].
  destruct (2 ^ 1074 <=? a') eqn:L1'; [destruct (2 ^ 1074 <=? a); lia|].
  apply Z.leb_gt in L1'.
  destruct (2 ^ 1074 <=? a) eqn:L1; [apply Z.leb_le in L1; lia|].
  apply rne_div_mono; lia.
Qed.

Lemma clamped_round_hundredths (avg : float) (a : Z) :
  fkey avg = Some a ->
  py_round (py_max 0%float (py_min 1%float avg)) 2 = hundredth (hundredths_of a).
Proof.
  intros E. unfold hundredths_of.
  assert (K : 0 < 2 ^ 1074 < 2 ^ 2100).
  { split; [apply Z.pow_pos_nonneg; lia | apply Z.pow_lt_mono_r; lia]. }
  destruct (clamp_cases avg) as [(-> & H0 & H1) | [(-> & H1) | (-> & H0 & H1)]];
    rewrite ltb_key, ?fkey_zero, ?fkey_one, E in *.
  - apply Z.ltb_ge in H0.
    replace (a <=? 0) with true by (symmetry; apply Z.leb_le; lia).
    apply py_round_zero.
  - apply Z.ltb_ge in H1.
    replace (a <=? 0) with false by (symmetry; apply Z.leb_gt; lia).
    replace (2 ^ 1074 <=? a) with true by (symmetry; apply Z.leb_le; lia).
    rewrite py_round_one. vm_compute. reflexivity.
  - apply Z.ltb_lt in H0, H1.
    replace (a <=? 0) with false by (symmetry; apply Z.leb_gt; lia).
    replace (2 ^ 1074 <=? a) with false by (symmetry; apply Z.leb_gt; lia).
    apply (py_round_key avg a E). lia.
Qed.

Lemma leb_trans (x y z : float) :
  (x <=? y)%float = true -> (y <=? z)%float = true -> (x <=? z)%float = true.
Proof.
  rewrite !leb_key.
  destruct (fkey x), (fkey y), (fkey z); try discriminate.
  intros H1 H2. apply Z.leb_le in H1, H2. apply Z.leb_le. lia.
Qed.

Lemma hundredth_step (n : Z) :
  0 <= n < 100 -> (hundredth n <=? hundredth (n + 1))%float = true.
Proof.
  intros Hn.
  assert (T : forallb (fun n => (hundredth n <=? hundredth (n + 1))%float)
                      (map Z.of_nat (seq 0 100)) = true)
    by (vm_compute; reflexivity).
  rewrite forallb_forall in T. apply T.
  apply in_map_iff. exists (Z.to_nat n). split; [lia|]. apply in_seq. lia.
Qed.

Lemma hundredth_mono (n m : Z) :
  0 <= n -> n <= m -> m <= 100 ->
  (hundredth n <=? hundredth m)%float = true.
Proof.
  intros H0 H1 H2.
  replace m with (n + Z.of_nat (Z.to_nat (m - n))) in * by lia.
  induction (Z.to_nat (m - n)) as [|d IH].
  - rewrite Z.add_0_r. destruct (hundredths_in_unit n ltac:(lia)) as [L _].
    rewrite leb_key in *. destruct (fkey 0%float), (fkey (hundredth n));
      try discriminate. apply Z.leb_refl.
  - apply (leb_trans _ (hundredth (n + Z.of_nat d))); [apply IH; lia|].
    replace (n + Z.of_nat (S d)) with (n + Z.of_nat d + 1) by lia.
    apply hundredth_step. lia.
Qed.

(** X12. The confidence never decreases when the mean of the scores increases:
    of two non-empty lists of scores, the one with the greater or equal mean
    gets the greater or equal confidence. *)
Theorem compute_confidence_monotone (s1 s2 : list float) :
  s1 <> [] -> s2 <> [] ->
  (mean s1 <=? mean s2)%float = true ->
  (rag_graph.compute_confidence s1 <=? rag_graph.compute_confidence s2)%float
  = true.
Proof.
  intros N1 N2 L.
  destruct s1 as [|x1 s1]; [congruence|]. destruct s2 as [|x2 s2]; [congruence|].
  unfold rag_graph.compute_confidence.
  fold (mean (x1 :: s1)). fold (mean (x2 :: s2)). cbv zeta.
  rewrite leb_key in L.
  destruct (fkey (mean (x1 :: s1))) as [a1|] eqn:E1; [|discriminate].
  destruct (fkey (mean (x2 :: s2))) as [a2|] eqn:E2; [|discriminate].
  apply Z.leb_le in L.
  rewrite (clamped_round_hundredths _ a1 E1), (clamped_round_hundredths _ a2 E2).
  pose proof (hundredths_of_range a1). pose proof (hundredths_of_range a2).
  apply hundredth_mono; try lia. apply hundredths_of_mono. exact L.
Qed.

Lemma compute_confidence_monotone_witness :
  (rag_graph.compute_confidence [0.25%float; 0.5%float]
   <=? rag_graph.compute_confidence [0.5%float; 0.75%float])%float = true.
Proof.
  apply (compute_confidence_monotone [0.25%float; 0.5%float]
                                     [0.5%float; 0.75%float]).
  - discriminate.
  - discriminate.
  - vm_compute. reflexivity.
Defined.

(** X23. [rag] calls the chat model only after retrieval has returned: whenever
    a chat call is among the calls it made, [retrieve] returned contexts and
    scores, and the calls were the embedding of the question followed by
    the one chat call on the joined contexts. *)
Theorem rag_generates_only_after_retrieval (P : providers) (question : str)
        (documents : list str) (doc_embeddings : option (list vec)) (k : Z)
        (w : world) :
  existsb is_generation
          (new_calls w (snd (rag_graph.rag P question documents doc_embeddings k w)))
  = true ->
  exists ctxs sim_scores,
    fst (retriever.retrieve P question documents doc_embeddings k w)
    = Returns (ctxs, sim_scores)
    /\ new_calls w (snd (rag_graph.rag P question documents doc_embeddings k w))
       = [EmbedQuery question;
          ChatInvoke SYSTEM (generator.prompt question (join [10%N] ctxs))].
Proof.
  assert (N : new_calls w w = [])
    by (apply new_calls_app; rewrite app_nil_r; reflexivity).
  assert (N1 : new_calls w (after_embedding w (EmbedQuery question))
               = [EmbedQuery question]) by (apply new_calls_app; reflexivity).
  destruct (model_ready_or_not P w) as [R | (F & e & E)].
  2:{ rewrite (rag_model_unavailable _ _ _ _ _ _ e F E). cbn [snd].
      rewrite N. discriminate. }
  destruct (embed_query P (calls w) question) as [v|e] eqn:Q.
  2:{ rewrite (rag_embedding_failure _ _ _ _ _ _ _ R Q). cbn [snd].
      rewrite N1. discriminate. }
  destruct (select P v documents doc_embeddings k) as [[td ts]|e] eqn:S.
  2:{ rewrite (rag_retrieval_failure _ _ _ _ _ _ _ _ R Q S). cbn [snd].
      rewrite N1. discriminate. }
  destruct (llm_ready_or_not P w) as [L | (F & e & E)].
  2:{ rewrite (rag_llm_unavailable _ _ _ _ _ _ _ _ _ _ R Q S F E). cbn [snd].
      rewrite N1. discriminate. }
  intros _. exists td, ts.
  rewrite (retrieve_run _ _ _ _ _ _ v R Q), S.
  rewrite (rag_run _ _ _ _ _ _ _ _ _ R Q S L). cbn [fst snd].
  split; [reflexivity|]. apply new_calls_app.
  cbn [after_generation after_embedding calls]. rewrite <- app_assoc.
  reflexivity.
Qed.

Lemma rag_generates_only_after_retrieval_witness :
  exists ctxs sim_scores,
    fst (retriever.retrieve fake mammals two_documents corpus_rows 1 loaded)
    = Returns (ctxs, sim_scores)
    /\ new_calls loaded
         (snd (rag_graph.rag fake mammals two_documents corpus_rows 1 loaded))
       = [EmbedQuery mammals;
          ChatInvoke SYSTEM (generator.prompt mammals (join [10%N] ctxs))].
Proof.
  apply (rag_generates_only_after_retrieval fake mammals two_documents
           corpus_rows 1 loaded).
  vm_compute. reflexivity.
Defined.
